(** * Synthetic UPI transactions: the sampler and the sequential pattern injector

    A shallow embedding of [upi_test/Untitled-1.py]:
    [generate_synthetic_transactions] builds a table of transaction records
    from two pseudo-random generators, the wall clock and the interpreter's
    string hash; [add_sequential_patterns] relabels rows of that table.

    Conventions of the embedding.
    - A data frame is the list of its rows; the frame built by
      [pd.DataFrame(data)] carries the default range index, so the label of
      a row is its position in the list.
    - Python floats are read as the rationals they denote ([Q]); sums,
      products and quotients of floats are taken exactly.
    - A [datetime] is the number of microseconds since the epoch, a
      [timedelta] a number of microseconds (both [Z]); this is the resolution
      of both Python types.
    - The column [is_fraud] holds the integers 0 and 1. *)

From Stdlib Require Import ZArith QArith Qround Lqa String Ascii Permutation.
From Stdlib Require Import DecimalString DecimalNat Sorted.
From stdpp Require Import base tactics option list sets strings.

Local Open Scope Z_scope.

(** ** Rows *)

Record transaction := Transaction {
  transaction_id : string;
  user_id : string;
  timestamp : Z;
  amount : Q;
  recipient_id : string;
  transaction_type : string;
  device_id : string;
  location : string;
  is_fraud : Z;
  fraud_type : string
}.

(** [df.loc[_, 'is_fraud'] = v] and [df.loc[_, 'fraud_type'] = s] on one row. *)
Definition set_is_fraud (v : Z) (t : transaction) : transaction :=
  Transaction (transaction_id t) (user_id t) (timestamp t) (amount t)
    (recipient_id t) (transaction_type t) (device_id t) (location t)
    v (fraud_type t).

Definition set_fraud_type (s : string) (t : transaction) : transaction :=
  Transaction (transaction_id t) (user_id t) (timestamp t) (amount t)
    (recipient_id t) (transaction_type t) (device_id t) (location t)
    (is_fraud t) s.

(** ** Rounding

    Python's [round] on a float, and the multiplication of a [timedelta] by
    a float, both round the exact value to the nearest integer, ties to the
    even one. *)
Definition round_half_even (q : Q) : Z :=
  let n := Qnum q in
  let d := Z.pos (Qden q) in
  let f := n / d in
  let r2 := 2 * (n mod d) in
  if r2 <? d then f
  else if d <? r2 then f + 1
  else if Z.even f then f else f + 1.

(** ** Pandas primitives used by the injector *)

(** [Series.unique()]: the distinct values in order of first appearance. *)
Fixpoint unique_from (seen : list string) (l : list string) : list string :=
  match l with
  | [] => []
  | x :: l' =>
      if bool_decide (x ∈ seen) then unique_from seen l'
      else x :: unique_from (x :: seen) l'
  end.

Definition unique (l : list string) : list string := unique_from [] l.

(** [df['user_id'] == user] *)
Definition user_mask (df : list transaction) (user : string) : list bool :=
  (λ t, String.eqb (user_id t) user) <$> df.

(** [mask.sum()] *)
Definition mask_sum (m : list bool) : nat :=
  length (filter (λ b, b = true) m).

(** [df[mask].index]: the labels of the selected rows, ascending. *)
Fixpoint index_from (k : nat) (m : list bool) : list nat :=
  match m with
  | [] => []
  | b :: m' =>
      if b then k :: index_from (S k) m' else index_from (S k) m'
  end.

Definition masked_index (m : list bool) : list nat := index_from 0 m.

(** [df.loc[labels, col] = v] for a list of labels: every row whose label
    is listed receives the new value. (Pandas raises [KeyError] on a label
    that is absent from the index; the injector only passes labels taken
    from the frame's own index, see [sample_index_valid].) *)
Definition loc_set (labels : list nat) (f : transaction → transaction)
    (df : list transaction) : list transaction :=
  imap (λ p t, if bool_decide (p ∈ labels) then f t else t) df.

(** [round(frac * obj_len)], the size [DataFrame.sample] gives to a
    fractional sample, with [frac = 0.1] read as one tenth. (The float
    product [0.1 * n] is exact when [n / 10] falls halfway between two
    integers and is otherwise within a rounding error of [n / 10], so for
    table sizes [round] returns the same integer on both.) *)
Definition sample_size (n : nat) : nat :=
  Z.to_nat (round_half_even ((1 # 10) * inject_Z (Z.of_nat n))).

(** 300 seconds, in microseconds. *)
Definition window : Z := 300 * 1000000.

(** The test of lines 104-106 on the rows labelled [idx1] and [idx2]:
    [amount <= 10], [amount > 10000] and
    [(timestamp2 - timestamp1).total_seconds() <= 300]. The difference of
    the timestamps is signed. *)
Definition micropay_test (t1 t2 : transaction) : bool :=
  Qle_bool (amount t1) 10
  && negb (Qle_bool (amount t2) 10000)
  && (timestamp t2 - timestamp t1 <=? window).

Definition micropay_cond (df : list transaction) (idx1 idx2 : nat) : bool :=
  match df !! idx1, df !! idx2 with
  | Some t1, Some t2 => micropay_test t1 t2
  | _, _ => false
  end.

Definition velocity_attack : string := "velocity_attack".
Definition micropay_scam : string := "micropay_scam".
Definition legitimate : string := "legitimate".

(** One turn of the loop of lines 102-108. *)
Definition micropay_step (user_indices : list nat) (df : list transaction)
    (i : nat) : list transaction :=
  let idx1 := nth i user_indices 0%nat in
  let idx2 := nth (i + 1) user_indices 0%nat in
  if micropay_cond df idx1 idx2 then
    alter (set_fraud_type micropay_scam) idx2 (alter (set_is_fraud 1) idx2 df)
  else df.

Section Injector.

(** [config.RANDOM_STATE], and NumPy's [RandomState(seed).permutation(n)]:
    [DataFrame.sample] seeds a fresh generator with [random_state] on every
    call and, drawing without replacement, takes the first [size] entries
    of its permutation of [range(n)]. *)
Variable RANDOM_STATE : Z.
Variable permutation : Z → nat → list nat.
Hypothesis permutation_perm :
  ∀ seed n, Permutation (permutation seed n) (seq 0 n).

(** Positions, within the selected rows, that the sample keeps. *)
Definition sample_positions (n : nat) : list nat :=
  take (sample_size n) (permutation RANDOM_STATE n).

(** [df[mask].sample(frac=0.1, random_state=RANDOM_STATE).index] *)
Definition sample_index (index : list nat) : list nat :=
  (λ k, nth k index 0%nat) <$> sample_positions (length index).

(** Lines 94-97, "add velocity attacks", for the rows selected by
    [mask]. *)
Definition velocity_pass (mask : list bool) (df : list transaction)
    : list transaction :=
  let fraud_indices := sample_index (masked_index mask) in
  let df := loc_set fraud_indices (set_is_fraud 1) df in
  loc_set fraud_indices (set_fraud_type velocity_attack) df.

(** Lines 99-108, "add micropay scams": [range(1, len(user_indices) - 1)]
    starts at 1. *)
Definition micropay_pass (mask : list bool) (df : list transaction)
    : list transaction :=
  let user_indices := masked_index mask in
  if (2 <? length user_indices)%nat then
    foldl (micropay_step user_indices) df
      (seq 1 (length user_indices - 1 - 1))
  else df.

(** The body of the loop over users, lines 92-108. *)
Definition process_user (df : list transaction) (user : string)
    : list transaction :=
  let mask := user_mask df user in
  if (10 <? mask_sum mask)%nat then
    micropay_pass mask (velocity_pass mask df)
  else df.

(** [df['user_id'].unique()[:100]] *)
Definition tracked_users (df : list transaction) : list string :=
  take 100 (unique (user_id <$> df)).

Definition add_sequential_patterns (df : list transaction)
    : list transaction :=
  foldl process_user df (tracked_users df).

End Injector.

(** ** The sampler *)

(** *** Formatting

    [f'{n:0{width}d}'] for a natural number: its decimal digits, padded on
    the left with zeros up to [width] characters. *)
Fixpoint zeros (k : nat) : string :=
  match k with
  | O => ""
  | S k' => String "0" (zeros k')
  end.

Definition format_d (width n : nat) : string :=
  let s := NilEmpty.string_of_uint (Nat.to_uint n) in
  zeros (width - String.length s) +:+ s.

(** [round(x, 2)], as the decimal it denotes. *)
Definition round2 (x : Q) : Q := Qmake (round_half_even (x * 100)) 100.

(** [timedelta * float]: the exact product rounded to a whole number of
    microseconds. *)
Definition timedelta_mul (td : Z) (r : Q) : Z :=
  round_half_even (inject_Z td * r).

(** [timedelta(days=n)] *)
Definition days (n : Z) : Z := n * 86400 * 1000000.

Definition Qltb (x y : Q) : bool := negb (Qle_bool y x).

(** *** The two pseudo-random generators

    The module draws from Python's [random] and from NumPy's global
    [np.random]. Each is a state, a seeding function and the draws the
    sampler uses; a draw returns a value and the next state. *)
Record PyRandom := {
  py_state : Type;
  (** [random.seed(a)] *)
  py_seed : Z → py_state;
  (** [random.random()] *)
  py_random : py_state → Q * py_state;
  (** [Random._randbelow(n)], the draw behind [random.choice] *)
  py_randbelow : nat → py_state → nat * py_state
}.

Record NumpyRandom := {
  np_state : Type;
  (** [np.random.seed(a)] *)
  np_seed : Z → np_state;
  (** [np.random.exponential(scale)] *)
  np_exponential : Q → np_state → Q * np_state;
  (** [np.random.uniform(low, high)] *)
  np_uniform : Q → Q → np_state → Q * np_state;
  (** [np.random.normal(loc, scale)] *)
  np_normal : Q → Q → np_state → Q * np_state;
  (** the index [np.random.choice] draws among [n] candidates *)
  np_randint : nat → np_state → nat * np_state
}.

(** What the library documentation promises about the range of the draws. *)
Record PyRandomLaws (P : PyRandom) : Prop := {
  py_random_range :
    ∀ s, (0 <= fst (py_random P s))%Q ∧ (fst (py_random P s) < 1)%Q;
  py_randbelow_range : ∀ n s, (0 < n)%nat → (fst (py_randbelow P n s) < n)%nat
}.

Record NumpyLaws (N : NumpyRandom) : Prop := {
  np_exponential_range :
    ∀ scale s, (0 <= scale)%Q → (0 <= fst (np_exponential N scale s))%Q;
  np_uniform_range :
    ∀ low high s, (low <= high)%Q → (low <= fst (np_uniform N low high s))%Q;
  np_randint_range : ∀ n s, (0 < n)%nat → (fst (np_randint N n s) < n)%nat
}.

Section Sampler.

Variable P : PyRandom.
Variable N : NumpyRandom.

(** [config.RANDOM_STATE] and [config.FRAUD_RATE]. *)
Variable RANDOM_STATE : Z.
Variable FRAUD_RATE : Q.

(** [datetime.now()] as read by this run, and the interpreter's [hash] on
    strings, which is salted anew in every process. *)
Variable now : Z.
Variable hash : string → Z.

(** The state of both generators. *)
Definition world : Type := py_state P * np_state N.

(** A computation that draws from the generators and may raise. *)
Definition gen (A : Type) : Type := world → option (A * world).

Definition ret {A} (a : A) : gen A := λ w, Some (a, w).

Definition bind {A B} (c : gen A) (k : A → gen B) : gen B :=
  λ w, match c w with
       | Some (a, w') => k a w'
       | None => None
       end.

Definition raise {A} : gen A := λ _, None.

Notation "x <- c ;; k" := (bind c (λ x, k))
  (at level 100, c at next level, right associativity).

Definition lift_py {A} (f : py_state P → A * py_state P) : gen A :=
  λ w, let (a, s) := f (fst w) in Some (a, (s, snd w)).

Definition lift_np {A} (f : np_state N → A * np_state N) : gen A :=
  λ w, let (a, s) := f (snd w) in Some (a, (fst w, s)).

(** A subscript [l[k]]; out of range it raises [IndexError]. *)
Definition subscript {A} (l : list A) (k : nat) : gen A :=
  match l !! k with
  | Some a => ret a
  | None => raise
  end.

(** [random.choice(l)] *)
Definition random_choice {A} (l : list A) : gen A :=
  k <- lift_py (py_randbelow P (length l)) ;; subscript l k.

(** [np.random.choice(l)] *)
Definition np_random_choice {A} (l : list A) : gen A :=
  k <- lift_np (np_randint N (length l)) ;; subscript l k.

Definition random_random : gen Q := lift_py (py_random P).

Definition user_ids : list string :=
  (λ i, "USER_" +:+ format_d 4 i) <$> seq 1 1000.

Definition recipients : list string :=
  (λ i, "RECIP_" +:+ format_d 4 i) <$> seq 1 500.

Definition end_date : Z := now.
Definition start_date : Z := end_date - days 90.

(** Lines 48-55. The local [amount] is only bound by the branch that
    matches; [amount_var] is its binding on entry ([None] when it is not
    bound yet). *)
Definition fraud_amount (fraud_type : string) (user_avg : Q)
    (amount_var : option Q) : gen (option Q) :=
  if String.eqb fraud_type "micropay_scam" then
    a <- np_random_choice [1; 2; 5; 10]%Q ;; ret (Some a)
  else if String.eqb fraud_type "velocity_attack" then
    a <- lift_np (np_uniform N 5000 50000) ;; ret (Some a)
  else if String.eqb fraud_type "new_recipient" then
    u <- lift_np (np_uniform N 3 10) ;; ret (Some (user_avg * u)%Q)
  else if String.eqb fraud_type "fake_refund" then
    a <- lift_np (np_uniform N 1000 20000) ;; ret (Some a)
  else ret amount_var.

(** The body of the loop, lines 29-82, for the counter [i]: the row it
    appends and the binding of [amount] it leaves. Reading an unbound
    [amount] raises [NameError]. The local [fraud_type] is read only when
    [is_fraud] holds, so what the other branch leaves in it does not
    matter. *)
Definition transaction_step (i : nat) (amount_var : option Q)
    : gen (transaction * option Q) :=
  user_id <- random_choice user_ids ;;
  r <- random_random ;;
  let timestamp := start_date + timedelta_mul (end_date - start_date) r in
  r <- random_random ;;
  let is_fraud := Qltb r FRAUD_RATE in
  e <- lift_np (np_exponential N 9000) ;;
  let user_avg := (1000 + e)%Q in
  branch <-
    (if is_fraud then
       fraud_type <- np_random_choice
         ["micropay_scam"; "velocity_attack"; "new_recipient";
          "fake_refund"] ;;
       amount <- fraud_amount fraud_type user_avg amount_var ;;
       recipient <- random_choice recipients ;;
       ret (fraud_type, amount, recipient)
     else
       x <- lift_np (np_normal N user_avg (user_avg / 3)%Q) ;;
       let amount := if Qltb 10 x then x else 10%Q in
       let amount := if Qltb 100000 amount then 100000%Q else amount in
       r <- random_random ;;
       recipient <-
         (if Qltb r 0.8 then random_choice (take 50 recipients)
          else random_choice recipients) ;;
       ret (legitimate, Some amount, recipient)) ;;
  let '(fraud_type, amount_var, recipient) := branch in
  amount <- (match amount_var with Some a => ret a | None => raise end) ;;
  transaction_type <-
    random_choice ["P2P"; "P2M"; "Recharge"; "Bill Payment"] ;;
  location <-
    random_choice
      ["Delhi"; "Mumbai"; "Bangalore"; "Chennai"; "Kolkata"; "Hyderabad"] ;;
  ret (Transaction
         ("TXN_" +:+ format_d 8 i)
         user_id
         timestamp
         (round2 amount)
         recipient
         transaction_type
         ("DEV_" +:+ format_d 3 (Z.to_nat (hash user_id mod 100)))
         location
         (if is_fraud then 1 else 0)
         (if is_fraud then fraud_type else legitimate),
       amount_var).

(** The loop [for i in range(n_samples)], appending to [data]. *)
Fixpoint generate_loop (counters : list nat) (amount_var : option Q)
    (data : list transaction) : gen (list transaction) :=
  match counters with
  | [] => ret data
  | i :: counters' =>
      step <- transaction_step i amount_var ;;
      generate_loop counters' (snd step) (data ++ [fst step])
  end.

Definition generate_synthetic_transactions (n_samples : nat)
    : gen (list transaction) :=
  generate_loop (seq 0 n_samples) None [].

(** Lines 10-11: both generators are seeded with [RANDOM_STATE] when the
    module is loaded. *)
Definition seeded : world := (py_seed P RANDOM_STATE, np_seed N RANDOM_STATE).

(** A run of the sampler in a fresh process: [None] if it raises. *)
Definition run_sampler (n_samples : nat) : option (list transaction) :=
  fst <$> generate_synthetic_transactions n_samples seeded.

End Sampler.

(** ** Labellings

    Every table the injector passes through is the input table with some
    rows relabelled. A labelling assigns to a row label the fraud type the
    row has received, if any. *)

Definition relabel (s : string) (t : transaction) : transaction :=
  set_fraud_type s (set_is_fraud 1 t).

Definition apply_labels (lab : nat → option string) (df : list transaction)
    : list transaction :=
  imap (λ p t, from_option (λ s, relabel s t) t (lab p)) df.

(** The later labelling wins where it is defined. *)
Definition override (new old : nat → option string) (p : nat)
    : option string :=
  match new p with Some s => Some s | None => old p end.

(** The columns the injector never writes. *)
Definition frame (t : transaction) :=
  (transaction_id t, user_id t, timestamp t, amount t,
   recipient_id t, transaction_type t, device_id t, location t).

(** Two rows that the injector cannot tell apart: same user, same amount,
    and timestamps that differ by the fixed offset [δ]. *)
Definition akin (δ : Z) (t t' : transaction) : Prop :=
  user_id t' = user_id t ∧ amount t' = amount t ∧
  timestamp t' = timestamp t + δ.

(** The labels written by the turns [turns] of the loop of lines 102-108
    over the table [df]. *)
Definition micropay_hits (df : list transaction) (user_indices : list nat)
    (turns : list nat) : list nat :=
  (λ i, nth (i + 1) user_indices 0%nat)
    <$> filter
          (λ i, micropay_cond df (nth i user_indices 0%nat)
                  (nth (i + 1) user_indices 0%nat) = true)
          turns.

Definition label_in (labels : list nat) (s : string) (p : nat)
    : option string :=
  if bool_decide (p ∈ labels) then Some s else None.

Section Labelling.

Variable RANDOM_STATE : Z.
Variable permutation : Z → nat → list nat.

(** The rows of [user] that the velocity sample draws. *)
Definition velocity_rows (df : list transaction) (user : string)
    : list nat :=
  sample_index RANDOM_STATE permutation (masked_index (user_mask df user)).

(** The rows of [user] that the scan for micropayments relabels. *)
Definition micropay_rows (df : list transaction) (user : string)
    : list nat :=
  let user_indices := masked_index (user_mask df user) in
  micropay_hits df user_indices (seq 1 (length user_indices - 1 - 1)).

(** What processing [user] writes. *)
Definition user_labels (df : list transaction) (user : string)
    : nat → option string :=
  if (10 <? mask_sum (user_mask df user))%nat then
    override (label_in (micropay_rows df user) micropay_scam)
      (label_in (velocity_rows df user) velocity_attack)
  else λ _, None.

(** What the loop over the tracked users writes, the later user winning. *)
Definition injector_labels (df : list transaction) : nat → option string :=
  foldl (λ lab u, override (user_labels df u) lab) (λ _, None)
    (tracked_users df).

(** The same, row by row. *)
Definition final_labels (df : list transaction) (p : nat) : option string :=
  match df !! p with
  | Some t =>
      if bool_decide (user_id t ∈ tracked_users df) then
        user_labels df (user_id t) p
      else None
  | None => None
  end.

End Labelling.

(** The invariant tying the two label columns together. *)
Definition labels_consistent (t : transaction) : Prop :=
  fraud_type t = legitimate ↔ is_fraud t = 0.

(** Two rows that differ at most in the timestamp, by the offset [δ], and
    in the device. *)
Definition same_draws (δ : Z) (t t' : transaction) : Prop :=
  transaction_id t' = transaction_id t ∧ user_id t' = user_id t ∧
  timestamp t' = timestamp t + δ ∧ amount t' = amount t ∧
  recipient_id t' = recipient_id t ∧
  transaction_type t' = transaction_type t ∧
  location t' = location t ∧
  is_fraud t' = is_fraud t ∧ fraud_type t' = fraud_type t.

(** What the sampler guarantees of the row it builds for the counter [i]. *)
Definition sampled_row (i : nat) (t : transaction) : Prop :=
  transaction_id t = "TXN_" +:+ format_d 8 i ∧
  (0 < amount t)%Q ∧
  labels_consistent t.

(** ** Reasoning about computations that draw

    [returns c Q]: from every state of the generators, [c] returns a value,
    and the value satisfies [Q]. [agree c1 c2 R]: from every state, either
    both raise, or both return, having made the same draws, values related
    by [R]. *)
Definition returns {P N A} (c : gen P N A) (Q : A → Prop) : Prop :=
  ∀ w, ∃ a w', c w = Some (a, w') ∧ Q a.

Definition agree {P N A B} (c1 : gen P N A) (c2 : gen P N B)
    (R : A → B → Prop) : Prop :=
  ∀ w,
    match c1 w, c2 w with
    | Some (a, w1), Some (b, w2) => w1 = w2 ∧ R a b
    | None, None => True
    | _, _ => False
    end.

(** ** Both stages in sequence, as the script runs them

    Lines 114-115. [pd.DataFrame(data)] gives the frame its columns from
    the records in [data]: built from no record at all, it has no column,
    and [df['user_id']] at line 89 raises [KeyError]. A sampler that has
    raised leaves nothing to inject into. *)

Definition run_script (P : PyRandom) (N : NumpyRandom)
    (RANDOM_STATE : Z) (FRAUD_RATE : Q) (permutation : Z → nat → list nat)
    (now : Z) (hash : string → Z) (n_samples : nat)
    : option (list transaction) :=
  match run_sampler P N RANDOM_STATE FRAUD_RATE now hash n_samples with
  | Some [] => None
  | Some (t :: df) =>
      Some (add_sequential_patterns RANDOM_STATE permutation (t :: df))
  | None => None
  end.

(** ** Concrete generators and tables for the examples *)

(** A counter in the place of each generator: every draw is read off the
    count of the draws made so far. *)
Definition counter_py : PyRandom := {|
  py_state := nat;
  py_seed := λ a, Z.to_nat a;
  py_random := λ s, (Z.of_nat (s mod 10) # 10, S s);
  py_randbelow := λ n s, ((s mod n)%nat, S s)
|}.

Definition counter_np : NumpyRandom := {|
  np_state := nat;
  np_seed := λ a, Z.to_nat a;
  np_exponential := λ scale s, (scale, S s);
  np_uniform := λ low high s, (low, S s);
  np_normal := λ loc scale s, (loc, S s);
  np_randint := λ n s, ((s mod n)%nat, S s)
|}.

(** Two permutations of [range(n)]: the identity and the reversal. *)
Definition identity_permutation (seed : Z) (n : nat) : list nat := seq 0 n.
Definition reverse_permutation (seed : Z) (n : nat) : list nat :=
  rev (seq 0 n).

(** Two string hashes. *)
Definition hash_length (s : string) : Z := Z.of_nat (String.length s).
Definition hash_zero (s : string) : Z := 0.

(** A legitimate row of [user] at [ts] microseconds for [a] rupees. *)
Definition plain_row (user : string) (ts : Z) (a : Q) : transaction :=
  Transaction "TXN" user ts a "RECIP" "P2P" "DEV" "Delhi" 0 legitimate.

(** Eleven rows of one user; the first two are a micropayment followed
    120 seconds later by a large transfer. *)
Definition first_pair_table : list transaction :=
  plain_row "U" 0 5 :: plain_row "U" 120000000 15000
    :: replicate 9 (plain_row "U" 0 100).

(** Eleven rows of one user; the second and third are a micropayment and a
    large transfer stamped a million seconds earlier. *)
Definition backwards_pair_table : list transaction :=
  plain_row "U" 0 100 :: plain_row "U" 1000000000000 5
    :: plain_row "U" 0 15000 :: replicate 8 (plain_row "U" 0 100).

(** The same three rows, and no more. *)
Definition short_history_table : list transaction :=
  [plain_row "U" 0 100; plain_row "U" 1000000000000 5; plain_row "U" 0 15000].

(** A hundred users with one row each, then eleven rows of a further
    user. *)
Definition crowded_table : list transaction :=
  ((λ i, plain_row (format_d 4 i) 0 100) <$> seq 0 100)
    ++ replicate 11 (plain_row "U" 0 100).

(** Eleven rows of one user; the last two are a micropayment followed
    120 seconds later by a large transfer. *)
Definition last_pair_table : list transaction :=
  replicate 9 (plain_row "U" 0 100)
    ++ [plain_row "U" 0 5; plain_row "U" 120000000 15000].

(** ** The summary the script prints, lines 117-118 *)

(** [df['is_fraud'].sum()] *)
Definition is_fraud_sum (df : list transaction) : Z :=
  foldr Z.add 0 (is_fraud <$> df).

(** [df['is_fraud'].mean()], as the rational it denotes; the mean of an
    empty column is NaN, here [None]. *)
Definition is_fraud_mean (df : list transaction) : option Q :=
  match df with
  | [] => None
  | _ :: _ => Some (Qmake (is_fraud_sum df) (Pos.of_nat (length df)))
  end.

(** ** What the sampler guarantees of a row, column by column *)

Definition archetypes : list string :=
  ["micropay_scam"; "velocity_attack"; "new_recipient"; "fake_refund"].

(** The categorical columns take their values in the fixed pools, and the
    two label columns are either (0, legitimate) or (1, an archetype). *)
Definition in_pools (t : transaction) : Prop :=
  user_id t ∈ user_ids ∧
  recipient_id t ∈ recipients ∧
  transaction_type t ∈ ["P2P"; "P2M"; "Recharge"; "Bill Payment"] ∧
  location t
    ∈ ["Delhi"; "Mumbai"; "Bangalore"; "Chennai"; "Kolkata"; "Hyderabad"] ∧
  ((is_fraud t = 0 ∧ fraud_type t = legitimate) ∨
   (is_fraud t = 1 ∧ fraud_type t ∈ archetypes)).

(** The timestamp lies in the 90 days that end at the reading of the
    clock. *)
Definition in_window (now : Z) (t : transaction) : Prop :=
  now - days 90 ≤ timestamp t ≤ now.

(** The amount, by label. *)
Definition amount_by_label (t : transaction) : Prop :=
  (fraud_type t = legitimate → (10 <= amount t)%Q ∧ (amount t <= 100000)%Q) ∧
  (fraud_type t = "micropay_scam" →
   (amount t == 1)%Q ∨ (amount t == 2)%Q ∨ (amount t == 5)%Q
   ∨ (amount t == 10)%Q) ∧
  (fraud_type t = "velocity_attack" → (5000 <= amount t)%Q) ∧
  (fraud_type t = "new_recipient" → (3000 <= amount t)%Q) ∧
  (fraud_type t = "fake_refund" → (1000 <= amount t)%Q).

(** The same before [round(amount, 2)], for the archetype [s] and the
    amount [x] drawn for it. *)
Definition drawn_amount (s : string) (x : Q) : Prop :=
  (s = "micropay_scam" → x ∈ [1; 2; 5; 10]%Q) ∧
  (s = "velocity_attack" → (5000 <= x)%Q) ∧
  (s = "new_recipient" → (3000 <= x)%Q) ∧
  (s = "fake_refund" → (1000 <= x)%Q).

(** The device is read off the hash of the user. *)
Definition device_of_user (hash : string → Z) (t : transaction) : Prop :=
  ∃ bucket,
    (bucket < 100)%nat ∧ bucket = Z.to_nat (hash (user_id t) mod 100) ∧
    device_id t = "DEV_" +:+ format_d 3 bucket.

(** A rate outside of (0, 1) decides the flag of every row. *)
Definition flag_by_rate (FRAUD_RATE : Q) (t : transaction) : Prop :=
  ((FRAUD_RATE <= 0)%Q → is_fraud t = 0) ∧
  ((1 <= FRAUD_RATE)%Q → is_fraud t = 1).

Definition generated_row (FRAUD_RATE : Q) (now : Z) (hash : string → Z)
    (i : nat) (t : transaction) : Prop :=
  transaction_id t = "TXN_" +:+ format_d 8 i ∧
  in_pools t ∧ in_window now t ∧ amount_by_label t ∧
  device_of_user hash t ∧ flag_by_rate FRAUD_RATE t.

(** A flag that is 0 or 1. *)
Definition flag_01 (t : transaction) : Prop :=
  is_fraud t = 0 ∨ is_fraud t = 1.

(** Every timestamp moved by [δ]. *)
Definition shift_time (δ : Z) (t : transaction) : transaction :=
  Transaction (transaction_id t) (user_id t) (timestamp t + δ) (amount t)
    (recipient_id t) (transaction_type t) (device_id t) (location t)
    (is_fraud t) (fraud_type t).

(** A user with twelve rows, none of them remarkable, in a table that
    begins with three rows of another user. *)
Definition two_users_table : list transaction :=
  replicate 3 (plain_row "V" 0 100) ++ replicate 12 (plain_row "U" 0 100).

(** ** Labellings: basic facts *)

Lemma frame_relabel s t : frame (relabel s t) = frame t.
Proof. reflexivity. Qed.

Lemma relabel_relabel s s' t : relabel s (relabel s' t) = relabel s t.
Proof. reflexivity. Qed.

Lemma akin_relabel s t : akin 0 t (relabel s t).
Proof. unfold akin. simpl. split_and!; [done..|lia]. Qed.

Lemma length_apply_labels lab df : length (apply_labels lab df) = length df.
Proof. apply length_imap. Qed.

Lemma lookup_apply_labels lab df p :
  apply_labels lab df !! p =
  (λ t, from_option (λ s, relabel s t) t (lab p)) <$> df !! p.
Proof. apply list_lookup_imap. Qed.

Lemma apply_labels_ext lab lab' df :
  (∀ p, (p < length df)%nat → lab p = lab' p) →
  apply_labels lab df = apply_labels lab' df.
Proof.
  intros E. apply list_eq. intros p. rewrite !lookup_apply_labels.
  destruct (df !! p) eqn:Hp; [|done]. simpl.
  by rewrite (E p (lookup_lt_Some _ _ _ Hp)).
Qed.

Lemma apply_labels_none df : apply_labels (λ _, None) df = df.
Proof.
  apply list_eq. intros p. rewrite lookup_apply_labels.
  by destruct (df !! p).
Qed.

Lemma apply_labels_override new old df :
  apply_labels new (apply_labels old df) = apply_labels (override new old) df.
Proof.
  apply list_eq. intros p. rewrite !lookup_apply_labels.
  destruct (df !! p) as [t|]; [|done]. simpl. f_equal. unfold override.
  destruct (new p), (old p); done.
Qed.

Lemma akin_apply_labels lab df :
  Forall2 (akin 0) df (apply_labels lab df).
Proof.
  apply Forall2_same_length_lookup. split.
  { by rewrite length_apply_labels. }
  intros p t t' Ht. rewrite lookup_apply_labels, Ht. simpl.
  intros [= <-]. destruct (lab p); simpl; [apply akin_relabel|].
  unfold akin. split_and!; [done..|lia].
Qed.

(** *** The assignments of the injector, as labellings *)

Lemma loc_set_velocity labels df :
  loc_set labels (set_fraud_type velocity_attack)
    (loc_set labels (set_is_fraud 1) df)
  = apply_labels
      (λ p, if bool_decide (p ∈ labels) then Some velocity_attack else None)
      df.
Proof.
  apply list_eq. intros p. unfold loc_set.
  rewrite lookup_apply_labels, !list_lookup_imap.
  destruct (df !! p) as [t|]; [|done]. simpl. by case_bool_decide.
Qed.

Lemma alter_micropay idx lab df :
  alter (set_fraud_type micropay_scam) idx
    (alter (set_is_fraud 1) idx (apply_labels lab df))
  = apply_labels
      (override (λ p, if bool_decide (p = idx) then Some micropay_scam
                      else None) lab) df.
Proof.
  apply list_eq. intros p. unfold override.
  rewrite !lookup_apply_labels.
  destruct (decide (p = idx)) as [->|Hne].
  - rewrite !list_lookup_alter_eq, lookup_apply_labels.
    rewrite bool_decide_eq_true_2 by done.
    destruct (df !! idx) as [t|]; [|done]. simpl. by destruct (lab idx).
  - rewrite !list_lookup_alter_ne, lookup_apply_labels by done.
    by rewrite bool_decide_eq_false_2 by done.
Qed.

(** *** Rows the injector cannot tell apart *)

Lemma user_mask_akin δ df df' user :
  Forall2 (akin δ) df df' → user_mask df' user = user_mask df user.
Proof.
  unfold user_mask. induction 1 as [|t t' df df' (Hu & _) _ IH]; [done|].
  rewrite !fmap_cons, IH, Hu. done.
Qed.

Lemma micropay_test_akin δ t1 t1' t2 t2' :
  akin δ t1 t1' → akin δ t2 t2' →
  micropay_test t1' t2' = micropay_test t1 t2.
Proof.
  intros (_ & Ha1 & Ht1) (_ & Ha2 & Ht2). unfold micropay_test.
  rewrite Ha1, Ha2, Ht1, Ht2. do 2 f_equal. lia.
Qed.

Lemma micropay_cond_akin δ df df' idx1 idx2 :
  Forall2 (akin δ) df df' →
  micropay_cond df' idx1 idx2 = micropay_cond df idx1 idx2.
Proof.
  intros H. unfold micropay_cond.
  pose proof (proj1 (Forall2_lookup _ _ _) H idx1) as H1.
  pose proof (proj1 (Forall2_lookup _ _ _) H idx2) as H2.
  destruct H1 as [t1 t1' H1|]; [|done].
  destruct H2 as [t2 t2' H2|]; [|done].
  by apply micropay_test_akin with δ.
Qed.

Lemma micropay_hits_akin δ df df' user_indices turns :
  Forall2 (akin δ) df df' →
  micropay_hits df' user_indices turns = micropay_hits df user_indices turns.
Proof.
  intros H. unfold micropay_hits. f_equal.
  apply list_filter_iff. intros i.
  by rewrite (micropay_cond_akin δ df df').
Qed.

(** *** The loop of lines 102-108 writes [micropay_hits] *)

Lemma micropay_loop user_indices df turns lab :
  foldl (micropay_step user_indices) (apply_labels lab df) turns
  = apply_labels
      (override (label_in (micropay_hits df user_indices turns) micropay_scam)
         lab) df.
Proof.
  revert lab. induction turns as [|i turns IH]; intros lab; simpl.
  { apply apply_labels_ext. intros p _. unfold override, label_in.
    rewrite bool_decide_eq_false_2; [done|]. unfold micropay_hits. simpl.
    apply not_elem_of_nil. }
  unfold micropay_step at 2.
  rewrite (micropay_cond_akin 0 df) by apply akin_apply_labels.
  unfold micropay_hits. rewrite filter_cons.
  destruct (micropay_cond df _ _) eqn:Hc.
  - rewrite alter_micropay, IH. rewrite decide_True by done.
    apply apply_labels_ext. intros p _. unfold override, label_in.
    rewrite fmap_cons. fold (micropay_hits df user_indices turns).
    rewrite (bool_decide_ext
               (p ∈ nth (i + 1) user_indices 0%nat
                    :: micropay_hits df user_indices turns)
               (p = nth (i + 1) user_indices 0%nat
                ∨ p ∈ micropay_hits df user_indices turns))
      by apply elem_of_cons.
    repeat case_bool_decide; try done; tauto.
  - rewrite IH. rewrite decide_False by done. done.
Qed.

Section InjectorLabels.

Variable RANDOM_STATE : Z.
Variable permutation : Z → nat → list nat.

Local Abbreviation process_user := (process_user RANDOM_STATE permutation).
Local Abbreviation add_sequential_patterns :=
  (add_sequential_patterns RANDOM_STATE permutation).
Local Abbreviation user_labels := (user_labels RANDOM_STATE permutation).
Local Abbreviation injector_labels :=
  (injector_labels RANDOM_STATE permutation).
Local Abbreviation velocity_rows := (velocity_rows RANDOM_STATE permutation).

(** Processing one user applies [user_labels]. *)
Lemma process_user_labels df user :
  process_user df user = apply_labels (user_labels df user) df.
Proof.
  unfold process_user, velocity_pass, micropay_pass, user_labels.
  destruct (10 <? mask_sum (user_mask df user))%nat;
    [|by rewrite apply_labels_none].
  rewrite loc_set_velocity.
  fold (label_in (sample_index RANDOM_STATE permutation
                    (masked_index (user_mask df user))) velocity_attack).
  fold (velocity_rows df user).
  destruct (2 <? length (masked_index (user_mask df user)))%nat eqn:Hlen.
  - by rewrite micropay_loop.
  - apply apply_labels_ext. intros p _. unfold override, micropay_rows.
    apply Nat.ltb_ge in Hlen.
    replace (length (masked_index (user_mask df user)) - 1 - 1)%nat
      with 0%nat by lia.
    done.
Qed.

Lemma user_labels_akin δ df df' user :
  Forall2 (akin δ) df df' → user_labels df' user = user_labels df user.
Proof.
  intros H. unfold user_labels, micropay_rows, velocity_rows.
  rewrite (user_mask_akin δ df df') by done.
  by rewrite (micropay_hits_akin δ df df').
Qed.

Lemma process_user_labelled lab df user :
  process_user (apply_labels lab df) user
  = apply_labels (override (user_labels df user) lab) df.
Proof.
  rewrite process_user_labels, apply_labels_override.
  by rewrite (user_labels_akin 0 df) by apply akin_apply_labels.
Qed.

Lemma foldl_process_user users lab df :
  foldl process_user (apply_labels lab df) users
  = apply_labels (foldl (λ lab u, override (user_labels df u) lab) lab users)
      df.
Proof.
  revert lab. induction users as [|u users IH]; intros lab; [done|].
  simpl. by rewrite process_user_labelled, IH.
Qed.

(** The injector relabels its input by [injector_labels]. *)
Lemma add_sequential_patterns_injector_labels df :
  add_sequential_patterns df = apply_labels (injector_labels df) df.
Proof.
  unfold add_sequential_patterns, injector_labels.
  rewrite <- (apply_labels_none df) at 1. apply foldl_process_user.
Qed.

Lemma user_ids_akin δ df df' :
  Forall2 (akin δ) df df' → user_id <$> df' = user_id <$> df.
Proof.
  induction 1 as [|t t' df df' (Hu & _) _ IH]; [done|].
  by rewrite !fmap_cons, IH, Hu.
Qed.

Lemma tracked_users_akin δ df df' :
  Forall2 (akin δ) df df' → tracked_users df' = tracked_users df.
Proof. intros H. unfold tracked_users. by rewrite (user_ids_akin δ df df'). Qed.

Lemma injector_labels_akin δ df df' :
  Forall2 (akin δ) df df' → injector_labels df' = injector_labels df.
Proof.
  intros H. unfold injector_labels.
  rewrite (tracked_users_akin δ df df') by done.
  generalize (λ _ : nat, @None string). generalize (tracked_users df).
  intros users. induction users as [|u users IH]; intros lab; [done|].
  simpl. by rewrite (user_labels_akin δ df df'), IH.
Qed.

End InjectorLabels.

(** *** Masks and indices *)

Lemma lookup_user_mask df user p :
  user_mask df user !! p = (λ t, String.eqb (user_id t) user) <$> df !! p.
Proof. apply list_lookup_fmap. Qed.

Lemma length_user_mask df user : length (user_mask df user) = length df.
Proof. apply length_fmap. Qed.

Lemma elem_of_index_from k m p :
  p ∈ index_from k m ↔ (k ≤ p)%nat ∧ m !! (p - k)%nat = Some true.
Proof.
  revert k. induction m as [|b m IH]; intros k; simpl.
  { rewrite elem_of_nil. split; [done|]. by intros [_ ?]. }
  assert (p ∈ index_from (S k) m ↔
          (k < p)%nat ∧ (b :: m) !! (p - k)%nat = Some true) as Htail.
  { rewrite IH. split.
    - intros [Hle Hp]. split; [lia|].
      replace (p - k)%nat with (S (p - S k)) by lia. done.
    - intros [Hlt Hp]. split; [lia|].
      replace (p - k)%nat with (S (p - S k)) in Hp by lia. done. }
  destruct b.
  - rewrite elem_of_cons, Htail. split.
    + intros [->|[Hlt Hp]]; [|split; [lia|done]].
      split; [lia|]. by rewrite Nat.sub_diag.
    + intros [Hle Hp]. destruct (decide (p = k)) as [|Hne]; [by left|].
      right. split; [lia|done].
  - rewrite Htail. split.
    + intros [Hlt Hp]. split; [lia|done].
    + intros [Hle Hp]. split; [|done].
      destruct (decide (p = k)) as [->|Hne]; [|lia].
      by rewrite Nat.sub_diag in Hp.
Qed.

Lemma elem_of_masked_index m p : p ∈ masked_index m ↔ m !! p = Some true.
Proof.
  unfold masked_index. rewrite elem_of_index_from, Nat.sub_0_r.
  split; [by intros [_ ?]|]. intros ?. split; [lia|done].
Qed.

Lemma length_index_from k m : length (index_from k m) = mask_sum m.
Proof.
  revert k. unfold mask_sum. induction m as [|b m IH]; intros k; [done|].
  simpl. rewrite filter_cons.
  destruct b; case_decide; try done; simpl; by rewrite IH.
Qed.

Lemma length_masked_index m : length (masked_index m) = mask_sum m.
Proof. apply length_index_from. Qed.

(** The index of the selected rows is strictly increasing. *)
Lemma index_from_sorted k m : StronglySorted lt (index_from k m).
Proof.
  revert k. induction m as [|b m IH]; intros k; simpl; [constructor|].
  destruct b; [|apply IH]. constructor; [apply IH|].
  apply Forall_forall. intros p Hp. apply elem_of_index_from in Hp. lia.
Qed.

Lemma NoDup_index_from k m : NoDup (index_from k m).
Proof.
  revert k. induction m as [|b m IH]; intros k; simpl; [constructor|].
  destruct b; [|apply IH]. constructor; [|apply IH].
  rewrite elem_of_index_from. lia.
Qed.

(** The rows selected by the mask of [user] are the rows of [user]. *)
Lemma elem_of_user_rows df user p :
  p ∈ masked_index (user_mask df user) ↔
  ∃ t, df !! p = Some t ∧ user_id t = user.
Proof.
  rewrite elem_of_masked_index, lookup_user_mask. split.
  - destruct (df !! p) as [t|]; [|done]. simpl. intros [= H].
    exists t. split; [done|]. by apply String.eqb_eq.
  - intros (t & -> & <-). simpl. by rewrite String.eqb_refl.
Qed.

Lemma nth_elem_of (l : list nat) k : (k < length l)%nat → nth k l 0%nat ∈ l.
Proof.
  intros Hk. apply list_elem_of_lookup. exists k.
  destruct (nth_lookup_or_length l k 0%nat) as [H|H]; [done|lia].
Qed.

Lemma micropay_hits_subset df user_indices p :
  p ∈ micropay_hits df user_indices (seq 1 (length user_indices - 1 - 1)) →
  p ∈ user_indices.
Proof.
  unfold micropay_hits. intros (i & -> & Hi)%list_elem_of_fmap.
  apply list_elem_of_filter in Hi as [_ Hi]. apply elem_of_seq in Hi.
  apply nth_elem_of. lia.
Qed.

(** *** The size of the sample *)

Lemma sample_size_eq n :
  sample_size n =
  Z.to_nat
    (let f := Z.of_nat n / 10 in
     let r2 := 2 * (Z.of_nat n mod 10) in
     if r2 <? 10 then f else if 10 <? r2 then f + 1
     else if Z.even f then f else f + 1).
Proof.
  unfold sample_size, round_half_even. simpl Qnum. simpl Qden.
  change (Z.pos (10 * 1)) with 10. by rewrite Z.mul_1_l.
Qed.

Lemma sample_size_le n : (sample_size n ≤ n)%nat.
Proof.
  rewrite sample_size_eq. cbv zeta.
  pose proof (Z.div_mod (Z.of_nat n) 10 ltac:(lia)) as Hdm.
  pose proof (Z.mod_pos_bound (Z.of_nat n) 10 ltac:(lia)) as Hm.
  repeat case_match; lia.
Qed.

Section Sample.

Variable RANDOM_STATE : Z.
Variable permutation : Z → nat → list nat.
Hypothesis permutation_perm :
  ∀ seed n, Permutation (permutation seed n) (seq 0 n).

Local Abbreviation sample_positions :=
  (sample_positions RANDOM_STATE permutation).
Local Abbreviation sample_index := (sample_index RANDOM_STATE permutation).
Local Abbreviation velocity_rows :=
  (velocity_rows RANDOM_STATE permutation).
Local Abbreviation user_labels := (user_labels RANDOM_STATE permutation).
Local Abbreviation final_labels := (final_labels RANDOM_STATE permutation).
Local Abbreviation injector_labels :=
  (injector_labels RANDOM_STATE permutation).
Local Abbreviation process_user := (process_user RANDOM_STATE permutation).
Local Abbreviation add_sequential_patterns :=
  (add_sequential_patterns RANDOM_STATE permutation).

Lemma length_permutation seed n : length (permutation seed n) = n.
Proof.
  rewrite (Permutation_length (permutation_perm seed n)). apply length_seq.
Qed.

Lemma length_sample_positions n :
  length (sample_positions n) = sample_size n.
Proof.
  unfold sample_positions. rewrite length_take, length_permutation.
  pose proof (sample_size_le n). lia.
Qed.

Lemma sample_positions_lt n k : k ∈ sample_positions n → (k < n)%nat.
Proof.
  unfold sample_positions. intros (i & Hk%list_elem_of_lookup_2 & _)%elem_of_take.
  rewrite (permutation_perm RANDOM_STATE n) in Hk.
  apply elem_of_seq in Hk. lia.
Qed.

Lemma NoDup_sample_positions n : NoDup (sample_positions n).
Proof.
  unfold sample_positions.
  apply sublist_NoDup with (permutation RANDOM_STATE n);
    [|apply sublist_take].
  rewrite (permutation_perm RANDOM_STATE n). apply NoDup_seq.
Qed.

(** The sample is drawn among the labels it is given. *)
Lemma sample_index_valid index p : p ∈ sample_index index → p ∈ index.
Proof.
  unfold sample_index. intros (k & -> & Hk)%list_elem_of_fmap.
  apply nth_elem_of. by apply sample_positions_lt.
Qed.

Lemma length_sample_index index :
  length (sample_index index) = sample_size (length index).
Proof.
  unfold sample_index. by rewrite length_fmap, length_sample_positions.
Qed.

(** It has no repeated label when the labels have none. *)
Lemma NoDup_sample_index index : NoDup index → NoDup (sample_index index).
Proof.
  intros Hnd. unfold sample_index.
  apply NoDup_fmap_2_strong; [|apply NoDup_sample_positions].
  intros j k Hj%sample_positions_lt Hk%sample_positions_lt Heq.
  apply (NoDup_lookup index j k (nth j index 0%nat)); [done|..].
  - destruct (nth_lookup_or_length index j 0%nat); [done|lia].
  - rewrite Heq. destruct (nth_lookup_or_length index k 0%nat); [done|lia].
Qed.

(** *** Processing a user only relabels rows of that user *)

Lemma user_labels_row df user p s :
  user_labels df user p = Some s →
  ∃ t, df !! p = Some t ∧ user_id t = user.
Proof.
  unfold user_labels. destruct (10 <? _)%nat; [|done].
  unfold override, label_in. intros H. apply elem_of_user_rows.
  case_bool_decide as Hm.
  - by apply micropay_hits_subset in Hm.
  - case_bool_decide as Hv; [|done]. by apply sample_index_valid in Hv.
Qed.

Lemma foldl_override_labels df users p :
  foldl (λ lab u, override (user_labels df u) lab) (λ _, None) users p
  = match df !! p with
    | Some t =>
        if bool_decide (user_id t ∈ users) then user_labels df (user_id t) p
        else None
    | None => None
    end.
Proof.
  induction users as [|u users IH] using rev_ind.
  { simpl. by destruct (df !! p). }
  rewrite foldl_snoc. unfold override at 1. rewrite IH.
  destruct (user_labels df u p) as [s|] eqn:Hu.
  - destruct (user_labels_row _ _ _ _ Hu) as (t & -> & ->).
    rewrite bool_decide_eq_true_2; [done|]. apply elem_of_app. right.
    by apply list_elem_of_singleton.
  - destruct (df !! p) as [t|]; [|done].
    destruct (decide (user_id t = u)) as [->|Hne].
    + rewrite Hu. by repeat case_bool_decide.
    + rewrite (bool_decide_ext (user_id t ∈ users ++ [u])
                 (user_id t ∈ users)); [done|].
      rewrite elem_of_app, list_elem_of_singleton. split; [|tauto].
      intros [?|?]; [done|congruence].
Qed.

(** The closed form of the injector, row by row. *)
Lemma lookup_add_sequential_patterns df p :
  add_sequential_patterns df !! p
  = (λ t, from_option (λ s, relabel s t) t (final_labels df p)) <$> df !! p.
Proof.
  rewrite add_sequential_patterns_injector_labels, lookup_apply_labels.
  unfold injector_labels. by rewrite foldl_override_labels.
Qed.

End Sample.

(** *** [unique]: distinct values, in order of first appearance *)

Lemma elem_of_unique_from seen l x :
  x ∈ unique_from seen l ↔ x ∈ l ∧ x ∉ seen.
Proof.
  revert seen. induction l as [|y l IH]; intros seen; simpl.
  { rewrite elem_of_nil. tauto. }
  case_bool_decide as Hy.
  - rewrite IH, elem_of_cons. split; [tauto|].
    intros [[->|Hx] Hn]; [done|tauto].
  - rewrite elem_of_cons, IH, !elem_of_cons. split.
    + intros [->|[Hx Hn]]; [tauto|]. split; [tauto|]. tauto.
    + intros [[->|Hx] Hn]; [tauto|].
      destruct (decide (x = y)); [tauto|]. right. tauto.
Qed.

Lemma NoDup_unique_from seen l : NoDup (unique_from seen l).
Proof.
  revert seen. induction l as [|y l IH]; intros seen; simpl; [constructor|].
  case_bool_decide; [apply IH|]. constructor; [|apply IH].
  rewrite elem_of_unique_from, elem_of_cons. tauto.
Qed.

Lemma elem_of_unique l x : x ∈ unique l ↔ x ∈ l.
Proof.
  unfold unique. rewrite elem_of_unique_from, elem_of_nil. tauto.
Qed.

Lemma NoDup_unique l : NoDup (unique l).
Proof. apply NoDup_unique_from. Qed.

Lemma unique_from_snoc seen l x :
  unique_from seen (l ++ [x])
  = if bool_decide (x ∈ l ++ seen) then unique_from seen l
    else unique_from seen l ++ [x].
Proof.
  revert seen. induction l as [|y l IH]; intros seen; simpl.
  { by case_bool_decide. }
  case_bool_decide as Hy.
  - rewrite IH. apply (f_equal (λ b : bool, if b then _ else _)).
    apply bool_decide_ext. rewrite !elem_of_app, !elem_of_cons, elem_of_app.
    split; [tauto|]. intros [->|?]; tauto.
  - rewrite IH.
    rewrite (bool_decide_ext (x ∈ l ++ y :: seen) (x ∈ y :: l ++ seen)).
    + by case_bool_decide.
    + rewrite !elem_of_app, !elem_of_cons, elem_of_app. tauto.
Qed.

(** A value met again is skipped, a new one is added at the end. *)
Lemma unique_snoc l x :
  unique (l ++ [x]) = if bool_decide (x ∈ l) then unique l else unique l ++ [x].
Proof. unfold unique. by rewrite unique_from_snoc, app_nil_r. Qed.

(** ** The injector: frame, idempotence, and the two patterns *)

Lemma identity_permutation_perm seed n :
  Permutation (identity_permutation seed n) (seq 0 n).
Proof. reflexivity. Qed.

Lemma reverse_permutation_perm seed n :
  Permutation (reverse_permutation seed n) (seq 0 n).
Proof. unfold reverse_permutation. symmetry. apply Permutation_rev. Qed.

Section InjectorTheorems.

Variable RANDOM_STATE : Z.
Variable permutation : Z → nat → list nat.
Hypothesis permutation_perm :
  ∀ seed n, Permutation (permutation seed n) (seq 0 n).

Local Abbreviation velocity_rows :=
  (velocity_rows RANDOM_STATE permutation).
Local Abbreviation velocity_pass :=
  (velocity_pass RANDOM_STATE permutation).
Local Abbreviation user_labels := (user_labels RANDOM_STATE permutation).
Local Abbreviation final_labels := (final_labels RANDOM_STATE permutation).
Local Abbreviation process_user := (process_user RANDOM_STATE permutation).
Local Abbreviation add_sequential_patterns :=
  (add_sequential_patterns RANDOM_STATE permutation).

Lemma length_add_sequential_patterns df :
  length (add_sequential_patterns df) = length df.
Proof.
  rewrite add_sequential_patterns_injector_labels.
  apply length_apply_labels.
Qed.

(** A row whose user is not tracked, or has ten rows or fewer, is left as
    it is. *)
Lemma untouched_row df p t :
  df !! p = Some t →
  user_id t ∉ tracked_users df ∨
    (mask_sum (user_mask df (user_id t)) ≤ 10)%nat →
  add_sequential_patterns df !! p = Some t.
Proof.
  intros Hp Hu. rewrite lookup_add_sequential_patterns by done.
  rewrite Hp. simpl. f_equal. unfold final_labels. rewrite Hp.
  case_bool_decide as Ht; [|done]. destruct Hu as [Hu|Hu]; [done|].
  unfold user_labels. by rewrite (proj2 (Nat.ltb_ge _ _) Hu).
Qed.

(** The label of a row of a tracked user with more than ten rows. *)
Lemma touched_row df p t :
  df !! p = Some t →
  user_id t ∈ tracked_users df →
  (10 < mask_sum (user_mask df (user_id t)))%nat →
  add_sequential_patterns df !! p
  = Some (if bool_decide (p ∈ micropay_rows df (user_id t)) then
            relabel micropay_scam t
          else if bool_decide (p ∈ velocity_rows df (user_id t)) then
            relabel velocity_attack t
          else t).
Proof.
  intros Hp Hu Hn. rewrite lookup_add_sequential_patterns by done.
  rewrite Hp. simpl. f_equal. unfold final_labels. rewrite Hp.
  rewrite bool_decide_eq_true_2 by done.
  unfold user_labels.
  rewrite (proj2 (Nat.ltb_lt _ _) Hn). unfold override, label_in.
  by repeat case_bool_decide.
Qed.

(** A pair that the loop of lines 102-108 visits and that passes its test
    has its second row relabelled, and the label stays to the end. *)
Lemma micropay_pair_relabelled df user i t1 t2 :
  let user_indices := masked_index (user_mask df user) in
  user ∈ tracked_users df →
  (10 < mask_sum (user_mask df user))%nat →
  (1 ≤ i)%nat → (i + 1 < length user_indices)%nat →
  df !! nth i user_indices 0%nat = Some t1 →
  df !! nth (i + 1) user_indices 0%nat = Some t2 →
  micropay_test t1 t2 = true →
  add_sequential_patterns df !! nth (i + 1) user_indices 0%nat
  = Some (relabel micropay_scam t2).
Proof.
  intros ui Hu Hn Hi1 Hi2 H1 H2 Htest.
  assert (user_id t2 = user) as Hu2.
  { assert (nth (i + 1) ui 0%nat ∈ ui) as Hin by by apply nth_elem_of.
    apply elem_of_user_rows in Hin as (t & Ht & <-). congruence. }
  rewrite (touched_row df _ t2) by (rewrite ?Hu2; done).
  rewrite bool_decide_eq_true_2; [done|].
  rewrite Hu2. unfold micropay_rows, micropay_hits. fold ui.
  apply list_elem_of_fmap. exists i. split; [done|].
  apply list_elem_of_filter. split.
  - unfold micropay_cond. by rewrite H1, H2.
  - apply elem_of_seq. lia.
Qed.


(** C7: the injector writes only the columns [is_fraud] and [fraud_type]:
    the output has the rows of the input, each with its transaction_id,
    user_id, timestamp, amount, recipient_id, transaction_type, device_id
    and location unchanged, and the rows of users that are not tracked
    are unchanged altogether. *)
Theorem add_sequential_patterns_frame df :
  Forall2
    (λ t t', frame t' = frame t ∧ (user_id t ∉ tracked_users df → t' = t))
    df (add_sequential_patterns df).
Proof.
  apply Forall2_same_length_lookup. split.
  { by rewrite length_add_sequential_patterns. }
  intros p t t' Hp Hp'. split.
  - rewrite lookup_add_sequential_patterns, Hp in Hp' by done.
    simpl in Hp'. injection Hp' as <-.
    by destruct (final_labels df p).
  - intros Hu. rewrite (untouched_row df p t) in Hp' by auto. congruence.
Qed.

(** C10, as amended: the test on the timestamps is on the signed
    difference. For a tracked user with more than 10 transactions and a
    pair of that user's rows that are adjacent in index order and are
    not the user's first two rows, if the first amount is at most 10, the
    second above 10000 and the second timestamp earlier than the first,
    by whatever margin, the second row ends up relabelled micropay_scam
    with is_fraud set. *)
Theorem micropay_window_is_signed df user i t1 t2 :
  let user_indices := masked_index (user_mask df user) in
  user ∈ tracked_users df →
  (10 < mask_sum (user_mask df user))%nat →
  (1 ≤ i)%nat → (i + 1 < length user_indices)%nat →
  df !! nth i user_indices 0%nat = Some t1 →
  df !! nth (i + 1) user_indices 0%nat = Some t2 →
  (amount t1 <= 10)%Q → (10000 < amount t2)%Q →
  timestamp t2 < timestamp t1 →
  ∃ t2',
    add_sequential_patterns df !! nth (i + 1) user_indices 0%nat = Some t2'
    ∧ is_fraud t2' = 1 ∧ fraud_type t2' = micropay_scam
    ∧ frame t2' = frame t2.
Proof.
  intros ui Hu Hn Hi1 Hi2 H1 H2 Ha1 Ha2 Hts.
  exists (relabel micropay_scam t2). split; [|done].
  apply (micropay_pair_relabelled df user i t1 t2); try done.
  unfold micropay_test, window.
  rewrite (proj2 (Qle_bool_iff _ _) Ha1).
  destruct (Qle_bool (amount t2) 10000) eqn:Hle.
  { apply Qle_bool_iff in Hle. lra. }
  simpl. apply Z.leb_le. lia.
Qed.

(** C9, as amended: for a tracked user with exactly 11 transactions the
    velocity pass draws exactly one of that user's rows; after injection
    that row has is_fraud set and is labelled velocity_attack, unless the
    scan for micropayments of the same user relabelled it, in which case
    it is labelled micropay_scam. *)
Theorem velocity_sample_of_eleven df user :
  user ∈ tracked_users df →
  mask_sum (user_mask df user) = 11%nat →
  ∃ p t,
    velocity_rows df user = [p] ∧ df !! p = Some t ∧ user_id t = user ∧
    add_sequential_patterns df !! p
    = Some (relabel
              (if bool_decide (p ∈ micropay_rows df user) then micropay_scam
               else velocity_attack) t).
Proof.
  intros Hu Hn.
  assert (length (velocity_rows df user) = 1%nat) as Hlen.
  { unfold velocity_rows.
    by rewrite length_sample_index, length_masked_index, Hn. }
  destruct (velocity_rows df user) as [|p [|]] eqn:Hrows; try done.
  assert (p ∈ masked_index (user_mask df user)) as Hp.
  { apply (sample_index_valid RANDOM_STATE permutation permutation_perm).
    fold (velocity_rows df user). rewrite Hrows. by left. }
  apply elem_of_user_rows in Hp as (t & Hp & Hut).
  exists p, t. split_and!; try done.
  rewrite (touched_row df p t) by (rewrite ?Hut; done || lia).
  rewrite Hut, Hrows. f_equal.
  case_bool_decide; [done|].
  rewrite bool_decide_eq_true_2; [done|]. by left.
Qed.

End InjectorTheorems.

(** C8: running the injector on its own output, with the same seed,
    changes nothing. *)
Theorem add_sequential_patterns_idempotent RANDOM_STATE permutation df :
  add_sequential_patterns RANDOM_STATE permutation
    (add_sequential_patterns RANDOM_STATE permutation df)
  = add_sequential_patterns RANDOM_STATE permutation df.
Proof.
  rewrite (add_sequential_patterns_injector_labels _ _ df).
  rewrite add_sequential_patterns_injector_labels.
  rewrite (injector_labels_akin _ _ 0 df) by apply akin_apply_labels.
  rewrite apply_labels_override. apply apply_labels_ext. intros p _.
  unfold override. by destruct (injector_labels _ _ df p).
Qed.

(** C1, at the failing input: one tracked user with 11 rows whose first two
    rows are a payment of 5 and, 120 seconds later, one of 15000. The loop
    of lines 102-108 starts at the user's second row, so this pair is never
    tested: whatever the seed and the permutation, the second row comes out
    either untouched or as a velocity_attack, never as a micropay_scam. *)
Theorem first_pair_is_skipped RANDOM_STATE permutation :
  let t1 := plain_row "U" 0 5 in
  let t2 := plain_row "U" 120000000 15000 in
  tracked_users first_pair_table = ["U"] ∧
  mask_sum (user_mask first_pair_table "U") = 11%nat ∧
  masked_index (user_mask first_pair_table "U") = seq 0 11 ∧
  first_pair_table !! 0%nat = Some t1 ∧
  first_pair_table !! 1%nat = Some t2 ∧
  micropay_test t1 t2 = true ∧
  (add_sequential_patterns RANDOM_STATE permutation first_pair_table !! 1%nat
     = Some t2 ∨
   add_sequential_patterns RANDOM_STATE permutation first_pair_table !! 1%nat
     = Some (relabel velocity_attack t2)).
Proof.
  intros t1 t2.
  assert (tracked_users first_pair_table = ["U"]) as Hu
    by (vm_compute; reflexivity).
  do 6 (split; [vm_compute; reflexivity|]).
  unfold add_sequential_patterns. rewrite Hu. simpl foldl.
  rewrite process_user_labels, lookup_apply_labels.
  change (first_pair_table !! 1%nat) with (Some t2). simpl.
  unfold user_labels.
  assert (mask_sum (user_mask first_pair_table "U") = 11%nat) as ->
    by (vm_compute; reflexivity).
  simpl. unfold override.
  assert (micropay_rows first_pair_table "U" = []) as ->
    by (vm_compute; reflexivity).
  unfold label_in at 1. simpl.
  unfold label_in. case_bool_decide; simpl; [by right|by left].
Qed.

(** The same input under the identity permutation: the second row is
    returned as it was. *)
Example first_pair_is_skipped_identity :
  add_sequential_patterns 42 identity_permutation first_pair_table !! 1%nat
  = Some (plain_row "U" 120000000 15000).
Proof. vm_compute. reflexivity. Qed.

(** Moved one row down, the same pair is relabelled. *)
Example later_pair_is_relabelled :
  add_sequential_patterns 42 identity_permutation
    (plain_row "U" 0 100 :: first_pair_table) !! 2%nat
  = Some (relabel micropay_scam (plain_row "U" 120000000 15000)).
Proof. vm_compute. reflexivity. Qed.

Lemma add_sequential_patterns_frame_witness :
  Forall2
    (λ t t',
       frame t' = frame t ∧ (user_id t ∉ tracked_users crowded_table → t' = t))
    crowded_table
    (add_sequential_patterns 42 identity_permutation crowded_table).
Proof.
  exact (add_sequential_patterns_frame 42 identity_permutation
           identity_permutation_perm crowded_table).
Defined.

Lemma tracked_single (df : list transaction) user :
  tracked_users df = [user] → user ∈ tracked_users df.
Proof. intros ->. by left. Qed.

Lemma micropay_window_is_signed_witness :
  ∃ t2',
    add_sequential_patterns 42 identity_permutation backwards_pair_table
      !! 2%nat = Some t2'
    ∧ is_fraud t2' = 1 ∧ fraud_type t2' = micropay_scam
    ∧ frame t2' = frame (plain_row "U" 0 15000).
Proof.
  apply (micropay_window_is_signed 42 identity_permutation
           identity_permutation_perm backwards_pair_table "U" 1
           (plain_row "U" 1000000000000 5) (plain_row "U" 0 15000)).
  - apply tracked_single. vm_compute. reflexivity.
  - vm_compute. lia.
  - lia.
  - vm_compute. lia.
  - reflexivity.
  - reflexivity.
  - vm_compute. discriminate.
  - vm_compute. reflexivity.
  - vm_compute. reflexivity.
Defined.

(** C10 as stated fails when the tracked user has 10 rows or fewer: here
    the user has three rows, the second and third are a payment of 5 and
    one of 15000 stamped a million seconds earlier, and the third row is
    returned as it was. *)
Lemma short_history_not_relabelled :
  let t1 := plain_row "U" 1000000000000 5 in
  let t2 := plain_row "U" 0 15000 in
  tracked_users short_history_table = ["U"] ∧
  masked_index (user_mask short_history_table "U") = [0; 1; 2]%nat ∧
  short_history_table !! 1%nat = Some t1 ∧
  short_history_table !! 2%nat = Some t2 ∧
  (amount t1 <= 10)%Q ∧ (10000 < amount t2)%Q ∧
  timestamp t2 < timestamp t1 ∧
  add_sequential_patterns 42 identity_permutation short_history_table
    !! 2%nat = Some t2 ∧
  is_fraud t2 = 0 ∧ fraud_type t2 = legitimate.
Proof.
  intros t1 t2. split_and!; try (vm_compute; reflexivity).
  vm_compute. discriminate.
Qed.

Lemma velocity_sample_of_eleven_witness :
  ∃ p t,
    velocity_rows 42 identity_permutation first_pair_table "U" = [p] ∧
    first_pair_table !! p = Some t ∧ user_id t = "U" ∧
    add_sequential_patterns 42 identity_permutation first_pair_table !! p
    = Some (relabel
              (if bool_decide (p ∈ micropay_rows first_pair_table "U") then
                 micropay_scam
               else velocity_attack) t).
Proof.
  apply (velocity_sample_of_eleven 42 identity_permutation
           identity_permutation_perm first_pair_table "U").
  - apply tracked_single. vm_compute. reflexivity.
  - vm_compute. reflexivity.
Defined.

(** C9 as stated fails in two ways. A user with exactly 11 rows who is the
    101st distinct user of the table is not tracked, and none of those rows
    is relabelled. And for a tracked user with exactly 11 rows, the one row
    the sample draws can be the large transfer of a micropayment pair: the
    scan that follows relabels it micropay_scam, and no row of the user is
    a velocity_attack at the end. *)
Lemma eleven_rows_without_velocity_attack :
  (mask_sum (user_mask crowded_table "U") = 11%nat ∧
   length (tracked_users crowded_table) = 100%nat ∧
   bool_decide ("U" ∈ tracked_users crowded_table) = false ∧
   filter (λ t, user_id t = "U" ∧ fraud_type t = velocity_attack)
     (add_sequential_patterns 42 identity_permutation crowded_table) = [])
  ∧
  (mask_sum (user_mask last_pair_table "U") = 11%nat ∧
   tracked_users last_pair_table = ["U"] ∧
   filter (λ t, user_id t = "U" ∧ fraud_type t = velocity_attack)
     (add_sequential_patterns 42 reverse_permutation last_pair_table) = [] ∧
   add_sequential_patterns 42 reverse_permutation last_pair_table !! 10%nat
   = Some (relabel micropay_scam (plain_row "U" 120000000 15000))).
Proof. split_and!; vm_compute; reflexivity. Qed.

(** ** The sampler *)

(** *** Formatting is injective *)

Lemma append_String c s s' : String c s +:+ s' = String c (s +:+ s').
Proof. reflexivity. Qed.

Lemma append_cancel_l p s s' : p +:+ s = p +:+ s' → s = s'.
Proof.
  induction p as [|c p IH]; [done|].
  rewrite !append_String. intros [= H]. by apply IH.
Qed.

Lemma uint_of_zeros k s d :
  NilEmpty.uint_of_string s = Some d →
  Nat.of_uint <$> NilEmpty.uint_of_string (zeros k +:+ s)
  = Some (Nat.of_uint d).
Proof.
  intros Hs. induction k as [|k IH]; simpl.
  { change ("" +:+ s) with s. by rewrite Hs. }
  destruct (NilEmpty.uint_of_string (zeros k +:+ s)) as [d'|]; [|done].
  simpl in *. by injection IH as <-.
Qed.

(** Reading the digits back gives the number. *)
Lemma format_d_decode width n :
  Nat.of_uint <$> NilEmpty.uint_of_string (format_d width n) = Some n.
Proof.
  unfold format_d.
  rewrite (uint_of_zeros _ _ (Nat.to_uint n)) by apply NilEmpty.usu.
  by rewrite Unsigned.of_to.
Qed.

Lemma format_d_inj width n m : format_d width n = format_d width m → n = m.
Proof.
  intros H. pose proof (format_d_decode width n) as Hn.
  rewrite H, format_d_decode in Hn. congruence.
Qed.

(** *** Rounding keeps amounts positive *)

Lemma round_half_even_floor q : Qnum q / Z.pos (Qden q) ≤ round_half_even q.
Proof.
  unfold round_half_even. cbv zeta.
  generalize (Qnum q / Z.pos (Qden q)) (Qnum q mod Z.pos (Qden q)).
  intros f r. repeat case_match; lia.
Qed.

Lemma round2_pos x : (1 <= x)%Q → (0 < round2 x)%Q.
Proof.
  intros Hx. unfold round2, Qlt. simpl.
  assert (100 <= x * 100)%Q as H by lra.
  pose proof (round_half_even_floor (x * 100)) as Hfloor.
  unfold Qle in H.
  change (Qnum 100) with 100 in H. change (QDen 100) with 1 in H.
  generalize dependent (x * 100)%Q. intros y Hfloor Hy.
  assert (100 ≤ Qnum y / Z.pos (Qden y)).
  { apply Z.div_le_lower_bound; lia. }
  lia.
Qed.

(** *** Rules for [returns] *)

Section Returns.

Variable P : PyRandom.
Variable N : NumpyRandom.
Hypothesis py_laws : PyRandomLaws P.
Hypothesis np_laws : NumpyLaws N.

Lemma returns_ret {A} (a : A) (Q : A → Prop) :
  Q a → returns (ret P N a) Q.
Proof. intros Ha w. by exists a, w. Qed.

Lemma returns_bind {A B} (c : gen P N A) (k : A → gen P N B)
    (Q1 : A → Prop) (Q2 : B → Prop) :
  returns c Q1 → (∀ a, Q1 a → returns (k a) Q2) →
  returns (bind P N c k) Q2.
Proof.
  intros Hc Hk w. destruct (Hc w) as (a & w' & Hw & Ha).
  destruct (Hk a Ha w') as (b & w'' & Hw' & Hb).
  exists b, w''. unfold bind. by rewrite Hw.
Qed.

Lemma returns_weaken {A} (c : gen P N A) (Q1 Q2 : A → Prop) :
  returns c Q1 → (∀ a, Q1 a → Q2 a) → returns c Q2.
Proof.
  intros Hc HQ w. destruct (Hc w) as (a & w' & Hw & Ha).
  exists a, w'. auto.
Qed.

Lemma returns_lift_py {A} (f : py_state P → A * py_state P)
    (Q : A → Prop) :
  (∀ s, Q (fst (f s))) → returns (lift_py P N f) Q.
Proof.
  intros Hf w. unfold lift_py. specialize (Hf (fst w)).
  destruct (f (fst w)) as [a s]. by exists a, (s, snd w).
Qed.

Lemma returns_lift_np {A} (f : np_state N → A * np_state N)
    (Q : A → Prop) :
  (∀ s, Q (fst (f s))) → returns (lift_np P N f) Q.
Proof.
  intros Hf w. unfold lift_np. specialize (Hf (snd w)).
  destruct (f (snd w)) as [a s]. by exists a, (fst w, s).
Qed.

Lemma returns_subscript {A} (l : list A) k :
  (k < length l)%nat → returns (subscript P N l k) (λ a, a ∈ l).
Proof.
  intros Hk w. unfold subscript.
  destruct (lookup_lt_is_Some_2 l k Hk) as [a Ha]. rewrite Ha.
  exists a, w. split; [done|]. by apply list_elem_of_lookup_2 with k.
Qed.

(** [random.choice] and [np.random.choice] on a list that is not empty
    return one of its elements. *)
Lemma returns_random_choice {A} (l : list A) :
  (0 < length l)%nat → returns (random_choice P N l) (λ a, a ∈ l).
Proof.
  intros Hl. unfold random_choice.
  apply returns_bind with (λ k, (k < length l)%nat).
  - apply returns_lift_py. intros s. by apply py_randbelow_range.
  - intros k Hk. by apply returns_subscript.
Qed.

Lemma returns_np_random_choice {A} (l : list A) :
  (0 < length l)%nat → returns (np_random_choice P N l) (λ a, a ∈ l).
Proof.
  intros Hl. unfold np_random_choice.
  apply returns_bind with (λ k, (k < length l)%nat).
  - apply returns_lift_np. intros s. by apply np_randint_range.
  - intros k Hk. by apply returns_subscript.
Qed.

Lemma returns_random_random :
  returns (random_random P N) (λ _, True).
Proof. apply returns_lift_py. done. Qed.

Lemma returns_np_uniform low high :
  (low <= high)%Q →
  returns (lift_np P N (np_uniform N low high)) (λ a, (low <= a)%Q).
Proof.
  intros H. apply returns_lift_np. intros s. by apply np_uniform_range.
Qed.

End Returns.

(** *** The injector keeps the two label columns consistent *)

Lemma labels_consistent_relabel s t :
  s ≠ legitimate → labels_consistent (relabel s t).
Proof. intros Hs. unfold labels_consistent. simpl. split; [done|lia]. Qed.

Lemma user_labels_concrete RANDOM_STATE permutation df user p s :
  user_labels RANDOM_STATE permutation df user p = Some s →
  s = velocity_attack ∨ s = micropay_scam.
Proof.
  unfold user_labels. destruct (10 <? _)%nat; [|done].
  unfold override, label_in.
  repeat case_bool_decide; intros [= <-]; auto.
Qed.

Lemma injector_labels_concrete RANDOM_STATE permutation df p s :
  injector_labels RANDOM_STATE permutation df p = Some s →
  s = velocity_attack ∨ s = micropay_scam.
Proof.
  unfold injector_labels. generalize (tracked_users df). intros users.
  induction users as [|u users IH] using rev_ind; [done|].
  rewrite foldl_snoc. unfold override at 1.
  destruct (user_labels _ _ df u p) as [s'|] eqn:Hu; [|done].
  intros [= <-]. by apply user_labels_concrete in Hu.
Qed.

Lemma add_sequential_patterns_consistent RANDOM_STATE permutation df :
  Forall labels_consistent df →
  Forall labels_consistent (add_sequential_patterns RANDOM_STATE permutation df).
Proof.
  intros H. rewrite add_sequential_patterns_injector_labels.
  apply Forall_lookup. intros p t'. rewrite lookup_apply_labels.
  destruct (df !! p) as [t|] eqn:Hp; [|done]. simpl. intros [= <-].
  destruct (injector_labels _ _ df p) as [s|] eqn:Hs; simpl.
  - apply labels_consistent_relabel.
    by destruct (injector_labels_concrete _ _ _ _ _ Hs) as [->| ->].
  - by apply (Forall_lookup_1 _ _ _ _ H Hp).
Qed.

(** *** One turn of the sampler's loop *)

Lemma length_user_ids : length user_ids = 1000%nat.
Proof. unfold user_ids. by rewrite length_fmap, length_seq. Qed.

Lemma length_recipients : length recipients = 500%nat.
Proof. unfold recipients. by rewrite length_fmap, length_seq. Qed.

Lemma archetype_not_legitimate s :
  s ∈ ["micropay_scam"; "velocity_attack"; "new_recipient"; "fake_refund"] →
  s ≠ legitimate.
Proof.
  intros H. repeat (apply elem_of_cons in H as [->|H]; [done|]).
  by apply elem_of_nil in H.
Qed.

Section SamplerFacts.

Variable P : PyRandom.
Variable N : NumpyRandom.
Hypothesis py_laws : PyRandomLaws P.
Hypothesis np_laws : NumpyLaws N.
Variable RANDOM_STATE : Z.
Variable FRAUD_RATE : Q.
Variable now : Z.
Variable hash : string → Z.

Local Abbreviation transaction_step :=
  (transaction_step P N FRAUD_RATE now hash).
Local Abbreviation generate_loop := (generate_loop P N FRAUD_RATE now hash).
Local Abbreviation generate_synthetic_transactions :=
  (generate_synthetic_transactions P N FRAUD_RATE now hash).
Local Abbreviation run_sampler :=
  (run_sampler P N RANDOM_STATE FRAUD_RATE now hash).

(** Every archetype draws an amount of at least 1. *)
Lemma returns_fraud_amount fraud_type user_avg amount_var :
  fraud_type
    ∈ ["micropay_scam"; "velocity_attack"; "new_recipient"; "fake_refund"] →
  (1000 <= user_avg)%Q →
  returns (fraud_amount P N fraud_type user_avg amount_var)
    (λ a, ∃ x, a = Some x ∧ (1 <= x)%Q).
Proof.
  intros Hft Havg. unfold fraud_amount.
  repeat (apply elem_of_cons in Hft as [->|Hft]); simpl.
  - eapply returns_bind;
      [apply returns_np_random_choice; [done|simpl; lia]|].
    intros a Ha. apply returns_ret. exists a. split; [done|].
    repeat (apply elem_of_cons in Ha as [->|Ha]; [done|]).
    by apply elem_of_nil in Ha.
  - eapply returns_bind; [apply returns_np_uniform; [done|lra]|].
    intros a Ha. apply returns_ret. exists a. split; [done|].
    simpl in Ha. lra.
  - eapply returns_bind; [apply returns_np_uniform; [done|lra]|].
    intros u Hu. apply returns_ret. eexists. split; [done|].
    simpl in Hu. nra.
  - eapply returns_bind; [apply returns_np_uniform; [done|lra]|].
    intros a Ha. apply returns_ret. exists a. split; [done|].
    simpl in Ha. lra.
  - by apply elem_of_nil in Hft.
Qed.

(** The row built for the counter [i]. *)
Lemma returns_transaction_step i amount_var :
  returns (transaction_step i amount_var) (λ step, sampled_row i (fst step)).
Proof.
  unfold transaction_step.
  eapply returns_bind;
    [apply returns_random_choice; [done|rewrite length_user_ids; lia]|].
  intros user _.
  eapply returns_bind; [apply returns_random_random|]. intros r1 _.
  eapply returns_bind; [apply returns_random_random|]. intros r2 _.
  eapply returns_bind.
  { apply returns_lift_np with (Q := λ e, (0 <= e)%Q). intros s.
    by apply np_exponential_range. }
  intros e He. simpl in He. cbv zeta.
  apply returns_bind with
    (Q1 := λ branch : string * option Q * string,
       (Qltb r2 FRAUD_RATE = true → branch.1.1 ≠ legitimate) ∧
       ∃ x, branch.1.2 = Some x ∧ (1 <= x)%Q).
  - destruct (Qltb r2 FRAUD_RATE).
    + eapply returns_bind;
        [apply returns_np_random_choice; [done|simpl; lia]|].
      intros fraud_type Hft. simpl in Hft.
      eapply returns_bind; [apply returns_fraud_amount; [done|lra]|].
      intros amount Hamount. simpl in Hamount.
      eapply returns_bind;
        [apply returns_random_choice; [done|rewrite length_recipients; lia]|].
      intros recipient _. apply returns_ret. simpl. split; [|done].
      intros _. by apply archetype_not_legitimate.
    + eapply returns_bind.
      { apply returns_lift_np with (Q := λ _, True). done. }
      intros x _.
      eapply returns_bind; [apply returns_random_random|]. intros r3 _.
      eapply returns_bind with (Q1 := λ _, True).
      { destruct (Qltb r3 0.8).
        - eapply returns_weaken.
          + apply returns_random_choice; [done|].
            rewrite length_take, length_recipients. lia.
          + done.
        - eapply returns_weaken.
          + apply returns_random_choice; [done|].
            rewrite length_recipients. lia.
          + done. }
      intros recipient _. apply returns_ret. simpl. split; [done|].
      eexists. split; [done|]. unfold Qltb.
      destruct (Qle_bool x 10) eqn:Hx10; simpl.
      * by destruct (Qle_bool 10 100000).
      * destruct (Qle_bool x 100000) eqn:Hx; simpl; [|done].
        assert (¬ (x <= 10)%Q) by (rewrite <- Qle_bool_iff; congruence).
        lra.
  - intros [[fraud_type amount] recipient] [Hft (x & Hamount & Hx)].
    simpl in Hft, Hamount. subst amount. simpl.
    apply returns_bind with (Q1 := λ a, a = x); [by apply returns_ret|].
    intros ? ->.
    eapply returns_bind;
      [apply returns_random_choice; [done|simpl; lia]|].
    intros transaction_type _.
    eapply returns_bind;
      [apply returns_random_choice; [done|simpl; lia]|].
    intros location _. apply returns_ret. simpl.
    split_and!; [done|by apply round2_pos|].
    unfold labels_consistent. simpl.
    destruct (Qltb r2 FRAUD_RATE); [|done].
    split; [|done]. intros Hl. by destruct Hft.
Qed.

Lemma returns_generate_loop counters amount_var data :
  returns (generate_loop counters amount_var data)
    (λ df, ∃ rows, df = data ++ rows ∧ Forall2 sampled_row counters rows).
Proof.
  revert amount_var data.
  induction counters as [|i counters IH]; intros amount_var data; simpl.
  { apply returns_ret. exists []. by rewrite app_nil_r. }
  eapply returns_bind; [apply returns_transaction_step|].
  intros [t amount_var'] Ht. simpl in *.
  eapply returns_weaken; [apply IH|].
  intros df (rows & -> & Hrows). exists (t :: rows).
  split; [by rewrite <- app_assoc|]. by constructor.
Qed.

(** The sampler returns, and its rows are the rows for the counters
    [0], ..., [n_samples - 1], in this order. *)
Lemma run_sampler_rows n_samples :
  ∃ df,
    run_sampler n_samples = Some df ∧
    Forall2 sampled_row (seq 0 n_samples) df.
Proof.
  unfold run_sampler, generate_synthetic_transactions.
  destruct (returns_generate_loop (seq 0 n_samples) None []
              (seeded P N RANDOM_STATE))
    as (df & w & Hrun & rows & -> & Hrows).
  exists rows. by rewrite Hrun.
Qed.

(** C4: for every requested count the sampler produces exactly that many
    records, the record at position [i] carries the identifier built from
    [i], so identifiers are assigned in increasing order of generation,
    and no two records share an identifier. *)
Theorem sampler_count_and_identifiers n_samples :
  ∃ df,
    run_sampler n_samples = Some df ∧
    length df = n_samples ∧
    transaction_id <$> df
      = (λ i, "TXN_" +:+ format_d 8 i) <$> seq 0 n_samples ∧
    NoDup (transaction_id <$> df).
Proof.
  destruct (run_sampler_rows n_samples) as (df & Hrun & Hrows).
  exists df. split; [done|].
  assert (transaction_id <$> df
          = (λ i, "TXN_" +:+ format_d 8 i) <$> seq 0 n_samples) as Hids.
  { clear Hrun. induction Hrows as [|i t cs df (Hid & _) _ IH]; [done|].
    by rewrite !fmap_cons, IH, Hid. }
  split_and!; [|done|].
  - by rewrite <- (Forall2_length _ _ _ Hrows), length_seq.
  - rewrite Hids. apply NoDup_fmap_2; [|apply NoDup_seq].
    intros i j Hij. apply append_cancel_l in Hij.
    by apply format_d_inj in Hij.
Qed.

(** C6: every generated record has a positive amount. *)
Theorem sampler_amounts_positive n_samples :
  ∃ df,
    run_sampler n_samples = Some df ∧
    Forall (λ t, (0 < amount t)%Q) df.
Proof.
  destruct (run_sampler_rows n_samples) as (df & Hrun & Hrows).
  exists df. split; [done|]. clear Hrun.
  induction Hrows as [|i t cs df (_ & Ha & _) _ IH]; by constructor.
Qed.

(** C5: at both stages, after generation and after injection, every
    record has [fraud_type = 'legitimate'] exactly when [is_fraud] is 0;
    and the injector keeps this on any table. *)
Theorem labels_stay_consistent permutation n_samples :
  (∃ df,
     run_sampler n_samples = Some df ∧
     Forall labels_consistent df ∧
     Forall labels_consistent
       (add_sequential_patterns RANDOM_STATE permutation df)) ∧
  (∀ df,
     Forall labels_consistent df →
     Forall labels_consistent
       (add_sequential_patterns RANDOM_STATE permutation df)).
Proof.
  split; [|apply add_sequential_patterns_consistent].
  destruct (run_sampler_rows n_samples) as (df & Hrun & Hrows).
  exists df. split; [done|].
  assert (Forall labels_consistent df) as Hdf.
  { clear Hrun.
    induction Hrows as [|i t cs df (_ & _ & Hc) _ IH]; by constructor. }
  split; [done|]. by apply add_sequential_patterns_consistent.
Qed.

End SamplerFacts.

(** ** Two runs of the script *)

Section Agree.

Variable P : PyRandom.
Variable N : NumpyRandom.

Lemma agree_refl {A} (c : gen P N A) : agree c c eq.
Proof. intros w. by destruct (c w) as [[a w']|]. Qed.

Lemma agree_ret {A B} (R : A → B → Prop) a b :
  R a b → agree (ret P N a) (ret P N b) R.
Proof. intros H w. done. Qed.

Lemma agree_bind {A A' B B'} (c : gen P N A) (c' : gen P N A')
    (k : A → gen P N B) (k' : A' → gen P N B')
    (R : A → A' → Prop) (S : B → B' → Prop) :
  agree c c' R → (∀ a a', R a a' → agree (k a) (k' a') S) →
  agree (bind P N c k) (bind P N c' k') S.
Proof.
  intros Hc Hk w. unfold bind. specialize (Hc w).
  destruct (c w) as [[a w1]|], (c' w) as [[a' w2]|]; try done.
  destruct Hc as [<- HR]. apply (Hk a a' HR).
Qed.

Variable FRAUD_RATE : Q.
Variables now1 now2 : Z.
Variables hash1 hash2 : string → Z.

(** A turn of the loop makes the same draws under both clocks and both
    hashes, and builds the same row up to the clock and the device. *)
Lemma agree_transaction_step i amount_var :
  agree (transaction_step P N FRAUD_RATE now1 hash1 i amount_var)
    (transaction_step P N FRAUD_RATE now2 hash2 i amount_var)
    (λ step step',
       same_draws (now2 - now1) (fst step) (fst step') ∧
       snd step' = snd step).
Proof.
  unfold transaction_step.
  eapply agree_bind; [apply agree_refl|]. intros user ? <-.
  eapply agree_bind; [apply agree_refl|]. intros r1 ? <-.
  eapply agree_bind; [apply agree_refl|]. intros r2 ? <-.
  eapply agree_bind; [apply agree_refl|]. intros e ? <-. cbv zeta.
  eapply agree_bind; [apply agree_refl|].
  intros [[fraud_type amount] recipient] ? <-.
  eapply agree_bind; [apply agree_refl|]. intros a ? <-.
  eapply agree_bind; [apply agree_refl|]. intros transaction_type ? <-.
  eapply agree_bind; [apply agree_refl|]. intros location ? <-.
  apply agree_ret. unfold same_draws. simpl. split_and!; try done.
  unfold start_date, end_date.
  replace (now2 - (now2 - days 90)) with (days 90) by lia.
  replace (now1 - (now1 - days 90)) with (days 90) by lia.
  lia.
Qed.

Lemma agree_generate_loop counters amount_var data data' :
  Forall2 (same_draws (now2 - now1)) data data' →
  agree (generate_loop P N FRAUD_RATE now1 hash1 counters amount_var data)
    (generate_loop P N FRAUD_RATE now2 hash2 counters amount_var data')
    (Forall2 (same_draws (now2 - now1))).
Proof.
  revert amount_var data data'.
  induction counters as [|i counters IH]; intros amount_var data data' H;
    simpl.
  { by apply agree_ret. }
  eapply agree_bind; [apply agree_transaction_step|].
  intros [t a] [t' a'] [Ht Ha]. simpl in *. subst a'.
  apply IH. apply Forall2_app; [done|]. by constructor.
Qed.

Lemma agree_run_sampler RANDOM_STATE n_samples :
  option_Forall2 (Forall2 (same_draws (now2 - now1)))
    (run_sampler P N RANDOM_STATE FRAUD_RATE now1 hash1 n_samples)
    (run_sampler P N RANDOM_STATE FRAUD_RATE now2 hash2 n_samples).
Proof.
  unfold run_sampler, generate_synthetic_transactions.
  pose proof (agree_generate_loop (seq 0 n_samples) None [] []
                (Forall2_nil_2 _ _ _) (seeded P N RANDOM_STATE)) as H.
  destruct (generate_loop P N FRAUD_RATE now1 _ _ _ _ _) as [[df w]|],
    (generate_loop P N FRAUD_RATE now2 _ _ _ _ _) as [[df' w']|];
    simpl; try done; constructor. by destruct H.
Qed.

End Agree.

(** The injector treats two such tables alike. *)
Lemma same_draws_akin δ t t' : same_draws δ t t' → akin δ t t'.
Proof. unfold same_draws, akin. tauto. Qed.

Lemma same_draws_relabel δ s t t' :
  same_draws δ t t' → same_draws δ (relabel s t) (relabel s t').
Proof. unfold same_draws. simpl. tauto. Qed.

Lemma add_sequential_patterns_same_draws RANDOM_STATE permutation δ df df' :
  Forall2 (same_draws δ) df df' →
  Forall2 (same_draws δ)
    (add_sequential_patterns RANDOM_STATE permutation df)
    (add_sequential_patterns RANDOM_STATE permutation df').
Proof.
  intros H. rewrite !add_sequential_patterns_injector_labels.
  rewrite (injector_labels_akin _ _ δ df df')
    by (eapply Forall2_impl; [done|apply same_draws_akin]).
  apply Forall2_same_length_lookup. split.
  { rewrite !length_apply_labels. by apply Forall2_length in H. }
  intros p t t'. rewrite !lookup_apply_labels.
  destruct (df !! p) as [u|] eqn:Hu; [|done].
  destruct (df' !! p) as [u'|] eqn:Hu'; [|done]. simpl.
  intros [= <-] [= <-].
  pose proof (Forall2_lookup_lr _ _ _ _ _ _ H Hu Hu') as Huu.
  destruct (injector_labels _ _ df p); simpl; [|done].
  by apply same_draws_relabel.
Qed.

(** C2, as amended: with the seed and the count fixed, two runs of the
    sampler, and of the sampler followed by the injector, either both raise
    or both return tables of the same length whose records agree in
    transaction_id, user_id, amount, recipient_id, transaction_type,
    location, is_fraud and fraud_type; the timestamps of the second run are
    those of the first moved by the difference of the two readings of the
    clock, so they are the same exactly when the clock reads the same. *)
Theorem runs_agree_up_to_clock P N RANDOM_STATE FRAUD_RATE permutation
    now1 hash1 now2 hash2 n_samples :
  option_Forall2 (Forall2 (same_draws (now2 - now1)))
    (run_sampler P N RANDOM_STATE FRAUD_RATE now1 hash1 n_samples)
    (run_sampler P N RANDOM_STATE FRAUD_RATE now2 hash2 n_samples) ∧
  option_Forall2 (Forall2 (same_draws (now2 - now1)))
    (run_script P N RANDOM_STATE FRAUD_RATE permutation now1 hash1 n_samples)
    (run_script P N RANDOM_STATE FRAUD_RATE permutation now2 hash2 n_samples).
Proof.
  pose proof (agree_run_sampler P N FRAUD_RATE now1 now2 hash1 hash2
                RANDOM_STATE n_samples) as H.
  split; [done|]. unfold run_script.
  destruct H as [df df' H|]; [|constructor].
  destruct H as [|t t' df df' Ht H]; constructor.
  apply add_sequential_patterns_same_draws. by constructor.
Qed.

(** ** The claims at concrete inputs *)

Lemma counter_py_laws : PyRandomLaws counter_py.
Proof.
  split; simpl.
  - intros s. unfold Qle, Qlt. simpl.
    pose proof (Nat.mod_upper_bound s 10). lia.
  - intros n s Hn. apply Nat.mod_upper_bound. lia.
Qed.

Lemma counter_np_laws : NumpyLaws counter_np.
Proof.
  split; simpl; [done|intros; apply Qle_refl|].
  intros n s Hn. apply Nat.mod_upper_bound. lia.
Qed.

Lemma sampler_count_and_identifiers_witness :
  ∃ df,
    run_sampler counter_py counter_np 42 0.3 0 hash_zero 12 = Some df ∧
    length df = 12%nat ∧
    transaction_id <$> df = (λ i, "TXN_" +:+ format_d 8 i) <$> seq 0 12 ∧
    NoDup (transaction_id <$> df).
Proof.
  exact (sampler_count_and_identifiers counter_py counter_np
           counter_py_laws counter_np_laws 42 0.3 0 hash_zero 12).
Defined.

Lemma sampler_amounts_positive_witness :
  ∃ df,
    run_sampler counter_py counter_np 42 0.3 0 hash_zero 12 = Some df ∧
    Forall (λ t, (0 < amount t)%Q) df.
Proof.
  exact (sampler_amounts_positive counter_py counter_np
           counter_py_laws counter_np_laws 42 0.3 0 hash_zero 12).
Defined.

Lemma labels_stay_consistent_witness :
  (∃ df,
     run_sampler counter_py counter_np 42 0.3 0 hash_zero 12 = Some df ∧
     Forall labels_consistent df ∧
     Forall labels_consistent
       (add_sequential_patterns 42 identity_permutation df)) ∧
  (∀ df,
     Forall labels_consistent df →
     Forall labels_consistent
       (add_sequential_patterns 42 identity_permutation df)).
Proof.
  exact (labels_stay_consistent counter_py counter_np
           counter_py_laws counter_np_laws 42 0.3 0 hash_zero
           identity_permutation 12).
Defined.

(** C2 as stated fails: one record, same seed, same count. Read at another
    time the clock gives another timestamp, and under another salt of the
    string hash the record gets another device_id. *)
Lemma clock_and_hash_reach_the_output :
  let run now hash :=
    run_script counter_py counter_np 42 0.3 identity_permutation now hash 1 in
  option_map (List.map timestamp) (run 7776000000000 hash_zero)
    = Some [2332800000000] ∧
  option_map (List.map timestamp) (run 7776001000000 hash_zero)
    = Some [2332801000000] ∧
  option_map (List.map device_id) (run 7776000000000 hash_zero)
    = Some ["DEV_000"] ∧
  option_map (List.map device_id) (run 7776000000000 hash_length)
    = Some ["DEV_009"] ∧
  run 7776000000000 hash_zero ≠ run 7776001000000 hash_zero ∧
  run 7776000000000 hash_zero ≠ run 7776000000000 hash_length.
Proof.
  intros run.
  assert (option_map (List.map timestamp) (run 7776000000000 hash_zero)
          = Some [2332800000000]) as H1 by (vm_compute; reflexivity).
  assert (option_map (List.map timestamp) (run 7776001000000 hash_zero)
          = Some [2332801000000]) as H2 by (vm_compute; reflexivity).
  assert (option_map (List.map device_id) (run 7776000000000 hash_zero)
          = Some ["DEV_000"]) as H3 by (vm_compute; reflexivity).
  assert (option_map (List.map device_id) (run 7776000000000 hash_length)
          = Some ["DEV_009"]) as H4 by (vm_compute; reflexivity).
  do 4 (split; [assumption|]). split.
  - intros H. rewrite H in H1. rewrite H2 in H1. discriminate.
  - intros H. rewrite H in H3. rewrite H4 in H3. discriminate.
Qed.

(** ** More on the injector *)

Lemma mask_sum_le_length m : (mask_sum m ≤ length m)%nat.
Proof. unfold mask_sum. apply length_filter. Qed.

(** A row comes out as it went in, or relabelled by one of the two
    passes. *)
Lemma add_sequential_patterns_row RANDOM_STATE permutation df p t :
  df !! p = Some t →
  add_sequential_patterns RANDOM_STATE permutation df !! p = Some t ∨
  add_sequential_patterns RANDOM_STATE permutation df !! p
    = Some (relabel velocity_attack t) ∨
  add_sequential_patterns RANDOM_STATE permutation df !! p
    = Some (relabel micropay_scam t).
Proof.
  intros Hp. rewrite add_sequential_patterns_injector_labels.
  rewrite lookup_apply_labels, Hp. simpl.
  destruct (injector_labels _ _ df p) as [s|] eqn:Hs; simpl; [|by left].
  right. by destruct (injector_labels_concrete _ _ _ _ _ Hs) as [->| ->];
    [left|right].
Qed.

(** X1: a table in which no user has more than 10 rows, the empty table
    among them, goes through the injector unchanged. *)
Theorem no_long_history_no_change RANDOM_STATE permutation df :
  (∀ user, (mask_sum (user_mask df user) ≤ 10)%nat) →
  add_sequential_patterns RANDOM_STATE permutation df = df.
Proof.
  intros Hshort. unfold add_sequential_patterns.
  generalize (tracked_users df). intros users.
  induction users as [|u users IH]; [done|]. simpl.
  replace (process_user RANDOM_STATE permutation df u) with df; [done|].
  unfold process_user. by rewrite (proj2 (Nat.ltb_ge _ _) (Hshort u)).
Qed.

Lemma no_long_history_no_change_witness :
  add_sequential_patterns 42 identity_permutation short_history_table
  = short_history_table.
Proof.
  apply (no_long_history_no_change 42 identity_permutation
           short_history_table).
  intros user.
  pose proof (mask_sum_le_length (user_mask short_history_table user)) as H.
  rewrite length_user_mask in H.
  change (length short_history_table) with 3%nat in H. lia.
Defined.

(** X2: the injector never clears a flag and never writes any label but
    its two: every row of the output is the row of the input at the same
    position, either as it was, or with is_fraud set to 1 and fraud_type
    set to velocity_attack or to micropay_scam. *)
Theorem injector_only_raises_flags RANDOM_STATE permutation df :
  Forall2
    (λ t t',
       t' = t ∨ t' = relabel velocity_attack t ∨ t' = relabel micropay_scam t)
    df (add_sequential_patterns RANDOM_STATE permutation df).
Proof.
  apply Forall2_same_length_lookup. split.
  { rewrite add_sequential_patterns_injector_labels.
    by rewrite length_apply_labels. }
  intros p t t' Hp Hp'.
  destruct (add_sequential_patterns_row RANDOM_STATE permutation df p t Hp)
    as [H|[H|H]]; rewrite H in Hp'; injection Hp' as <-; auto.
Qed.

Lemma is_fraud_sum_mono df df' :
  Forall2 (λ t t', is_fraud t ≤ is_fraud t') df df' →
  is_fraud_sum df ≤ is_fraud_sum df'.
Proof.
  unfold is_fraud_sum. induction 1 as [|t t' df df' Ht _ IH]; csimpl; lia.
Qed.

Lemma flags_after_injection RANDOM_STATE permutation df :
  Forall flag_01 df →
  Forall2 (λ t t', is_fraud t ≤ is_fraud t' ∧ flag_01 t')
    df (add_sequential_patterns RANDOM_STATE permutation df).
Proof.
  intros Hflags. apply Forall2_same_length_lookup. split.
  { rewrite add_sequential_patterns_injector_labels.
    by rewrite length_apply_labels. }
  intros p t t' Hp Hp'.
  pose proof (Forall_lookup_1 _ _ _ _ Hflags Hp) as Ht.
  destruct (add_sequential_patterns_row RANDOM_STATE permutation df p t Hp)
    as [H|[H|H]]; rewrite H in Hp'; injection Hp' as <-;
    unfold flag_01 in *; simpl; lia.
Qed.

Lemma is_fraud_sum_bounds df :
  Forall flag_01 df → 0 ≤ is_fraud_sum df ≤ Z.of_nat (length df).
Proof.
  unfold is_fraud_sum, flag_01.
  induction 1 as [|t df Ht _ IH]; csimpl; lia.
Qed.

(** X3: on a table whose flags are 0 or 1, injection leaves them 0 or 1
    and lowers neither the number of flagged rows nor the fraud rate that
    the script prints. *)
Theorem injection_never_lowers_fraud_rate RANDOM_STATE permutation df :
  Forall flag_01 df →
  let df' := add_sequential_patterns RANDOM_STATE permutation df in
  Forall flag_01 df' ∧
  is_fraud_sum df ≤ is_fraud_sum df' ∧
  match is_fraud_mean df, is_fraud_mean df' with
  | Some r, Some r' => (r <= r')%Q
  | None, None => df = []
  | _, _ => False
  end.
Proof.
  intros Hflags df'.
  pose proof (flags_after_injection RANDOM_STATE permutation df Hflags) as H.
  fold df' in H.
  assert (is_fraud_sum df ≤ is_fraud_sum df') as Hsum.
  { apply is_fraud_sum_mono. eapply Forall2_impl; [done|]. by intros ?? [??]. }
  split_and!; [|done|].
  - apply Forall2_Forall_r with (Q := flag_01) in H; [done|].
    apply Forall_true. by intros ?? [??].
  - pose proof (Forall2_length _ _ _ H) as Hlen.
    unfold is_fraud_mean.
    destruct df as [|t df], df' as [|t' df'']; try done.
    rewrite <- Hlen. unfold Qle. simpl Qnum. simpl Qden.
    apply Z.mul_le_mono_nonneg_r; lia.
Qed.

Lemma injection_never_lowers_fraud_rate_witness :
  let df' := add_sequential_patterns 42 identity_permutation first_pair_table in
  Forall flag_01 df' ∧
  is_fraud_sum first_pair_table ≤ is_fraud_sum df' ∧
  match is_fraud_mean first_pair_table, is_fraud_mean df' with
  | Some r, Some r' => (r <= r')%Q
  | None, None => first_pair_table = []
  | _, _ => False
  end.
Proof.
  apply (injection_never_lowers_fraud_rate 42 identity_permutation
           first_pair_table).
  cbv [first_pair_table replicate].
  repeat (constructor; [by left|]). constructor.
Defined.

Lemma sample_size_nearest n :
  (10 * sample_size n ≤ n + 5)%nat ∧ (n ≤ 10 * sample_size n + 5)%nat.
Proof.
  rewrite sample_size_eq. cbv zeta.
  pose proof (Z.div_mod (Z.of_nat n) 10 ltac:(lia)) as Hdm.
  pose proof (Z.mod_pos_bound (Z.of_nat n) 10 ltac:(lia)) as Hm.
  repeat case_match; lia.
Qed.

Lemma micropay_test_true t1 t2 :
  micropay_test t1 t2 = true →
  (amount t1 <= 10)%Q ∧ (10000 < amount t2)%Q ∧
  timestamp t2 - timestamp t1 ≤ window.
Proof.
  unfold micropay_test. intros H.
  apply andb_true_iff in H as [H Ht]. apply andb_true_iff in H as [H1 H2].
  split_and!.
  - by apply Qle_bool_iff.
  - apply Qnot_le_lt. intros Hle. apply Qle_bool_iff in Hle.
    by rewrite Hle in H2.
  - by apply Z.leb_le.
Qed.

(** What puts a label into [micropay_rows]. *)
Lemma elem_of_micropay_rows df user p :
  p ∈ micropay_rows df user →
  let user_indices := masked_index (user_mask df user) in
  ∃ i t1 t2,
    (1 ≤ i)%nat ∧ (i + 1 < length user_indices)%nat ∧
    nth (i + 1) user_indices 0%nat = p ∧
    df !! nth i user_indices 0%nat = Some t1 ∧ df !! p = Some t2 ∧
    micropay_test t1 t2 = true.
Proof.
  intros Hp ui. unfold micropay_rows, micropay_hits in Hp. fold ui in Hp.
  apply list_elem_of_fmap in Hp as (i & -> & Hi).
  apply list_elem_of_filter in Hi as [Hcond Hi]. apply elem_of_seq in Hi.
  unfold micropay_cond in Hcond.
  destruct (df !! nth i ui 0%nat) as [t1|] eqn:H1; [|done].
  destruct (df !! nth (i + 1) ui 0%nat) as [t2|] eqn:H2; [|done].
  exists i, t1, t2. split_and!; try done; lia.
Qed.

Section InjectorExtras.

Variable RANDOM_STATE : Z.
Variable permutation : Z → nat → list nat.
Hypothesis permutation_perm :
  ∀ seed n, Permutation (permutation seed n) (seq 0 n).

Local Abbreviation velocity_rows :=
  (velocity_rows RANDOM_STATE permutation).
Local Abbreviation add_sequential_patterns :=
  (add_sequential_patterns RANDOM_STATE permutation).

(** X4: the injector gives the label micropay_scam only where the scan
    finds its pattern. A row that comes out labelled micropay_scam, without
    having carried the label before, has an amount above 10000, and the row
    just before it among the rows of the same user, in index order, has an
    amount of at most 10 and a timestamp that is not more than 300 seconds
    earlier. *)
Theorem micropay_label_is_earned df p t t' :
  df !! p = Some t →
  add_sequential_patterns df !! p = Some t' →
  fraud_type t' = micropay_scam →
  fraud_type t ≠ micropay_scam →
  let user_indices := masked_index (user_mask df (user_id t)) in
  (10000 < amount t)%Q ∧
  ∃ i t1,
    (1 ≤ i)%nat ∧ (i + 1 < length user_indices)%nat ∧
    nth (i + 1) user_indices 0%nat = p ∧
    df !! nth i user_indices 0%nat = Some t1 ∧
    (amount t1 <= 10)%Q ∧ timestamp t - timestamp t1 ≤ window.
Proof.
  intros Hp Hp' Hout Hin ui.
  rewrite lookup_add_sequential_patterns, Hp in Hp' by done.
  simpl in Hp'. injection Hp' as <-.
  unfold final_labels in Hout. rewrite Hp in Hout.
  case_bool_decide as Htracked; [|done].
  unfold user_labels in Hout.
  destruct (10 <? _)%nat; [|done].
  unfold override, label_in in Hout.
  case_bool_decide as Hhit.
  - destruct (elem_of_micropay_rows df (user_id t) p Hhit)
      as (i & t1 & t2 & Hi1 & Hi2 & Hnth & H1 & H2 & Htest).
    assert (t2 = t) as -> by congruence.
    apply micropay_test_true in Htest as (Ha1 & Ha2 & Hts).
    split; [done|]. by exists i, t1.
  - by case_bool_decide.
Qed.

(** X5: every tracked user with more than 10 rows ends up with a flagged
    row. The velocity sample of such a user is not empty, its size is the
    integer nearest to a tenth of the user's rows, and every sampled row
    comes out with is_fraud set and labelled velocity_attack or
    micropay_scam. *)
Theorem long_history_gets_a_flag df user :
  user ∈ tracked_users df →
  (10 < mask_sum (user_mask df user))%nat →
  let n := mask_sum (user_mask df user) in
  let sampled := velocity_rows df user in
  (1 ≤ length sampled)%nat ∧
  (10 * length sampled ≤ n + 5)%nat ∧ (n ≤ 10 * length sampled + 5)%nat ∧
  ∀ p,
    p ∈ sampled →
    ∃ t t',
      df !! p = Some t ∧ user_id t = user ∧
      add_sequential_patterns df !! p = Some t' ∧
      is_fraud t' = 1 ∧
      (fraud_type t' = velocity_attack ∨ fraud_type t' = micropay_scam).
Proof.
  intros Hu Hn n sampled.
  assert (length sampled = sample_size n) as Hlen.
  { unfold sampled, velocity_rows.
    by rewrite length_sample_index, length_masked_index. }
  pose proof (sample_size_nearest n) as [Hlo Hhi]. fold n in Hn.
  rewrite Hlen. split_and!; [lia|done|done|].
  intros p Hp.
  assert (p ∈ masked_index (user_mask df user)) as Hrow
    by by apply (sample_index_valid RANDOM_STATE permutation permutation_perm).
  apply elem_of_user_rows in Hrow as (t & Ht & Hut). subst user.
  eexists t, _. split_and!; [done|done|..].
  - by apply (touched_row RANDOM_STATE permutation permutation_perm df p t).
  - rewrite (bool_decide_eq_true_2 (p ∈ velocity_rows df (user_id t)))
      by done.
    by case_bool_decide.
  - rewrite (bool_decide_eq_true_2 (p ∈ velocity_rows df (user_id t)))
      by done.
    case_bool_decide; simpl; auto.
Qed.

(** X6: the final label of a row of a tracked user with more than 10 rows.
    The scan for micropayments runs after the velocity sample, so its
    label wins: a row that the scan relabels comes out as micropay_scam
    whether sampled or not, a row that is only sampled comes out as
    velocity_attack, and any other row comes out as it went in. *)
Theorem micropay_label_wins df p t :
  df !! p = Some t →
  user_id t ∈ tracked_users df →
  (10 < mask_sum (user_mask df (user_id t)))%nat →
  add_sequential_patterns df !! p
  = Some (if bool_decide (p ∈ micropay_rows df (user_id t)) then
            relabel micropay_scam t
          else if bool_decide (p ∈ velocity_rows df (user_id t)) then
            relabel velocity_attack t
          else t).
Proof. by apply touched_row. Qed.

End InjectorExtras.

Lemma micropay_label_is_earned_witness :
  let t := plain_row "U" 0 15000 in
  let user_indices := masked_index (user_mask backwards_pair_table (user_id t)) in
  (10000 < amount t)%Q ∧
  ∃ i t1,
    (1 ≤ i)%nat ∧ (i + 1 < length user_indices)%nat ∧
    nth (i + 1) user_indices 0%nat = 2%nat ∧
    backwards_pair_table !! nth i user_indices 0%nat = Some t1 ∧
    (amount t1 <= 10)%Q ∧ timestamp t - timestamp t1 ≤ window.
Proof.
  apply (micropay_label_is_earned 42 identity_permutation
           identity_permutation_perm backwards_pair_table 2
           (plain_row "U" 0 15000)
           (relabel micropay_scam (plain_row "U" 0 15000))).
  - reflexivity.
  - vm_compute. reflexivity.
  - reflexivity.
  - vm_compute. discriminate.
Defined.

Lemma long_history_gets_a_flag_witness :
  let df := two_users_table in
  let n := mask_sum (user_mask df "U") in
  let sampled := velocity_rows 42 identity_permutation df "U" in
  (1 ≤ length sampled)%nat ∧
  (10 * length sampled ≤ n + 5)%nat ∧ (n ≤ 10 * length sampled + 5)%nat ∧
  ∀ p,
    p ∈ sampled →
    ∃ t t',
      df !! p = Some t ∧ user_id t = "U" ∧
      add_sequential_patterns 42 identity_permutation df !! p = Some t' ∧
      is_fraud t' = 1 ∧
      (fraud_type t' = velocity_attack ∨ fraud_type t' = micropay_scam).
Proof.
  apply (long_history_gets_a_flag 42 identity_permutation
           identity_permutation_perm two_users_table "U").
  - assert (tracked_users two_users_table = ["V"; "U"]) as ->
      by (vm_compute; reflexivity).
    right. left.
  - vm_compute. lia.
Defined.

Lemma micropay_label_wins_witness :
  let t := plain_row "U" 120000000 15000 in
  add_sequential_patterns 42 reverse_permutation last_pair_table !! 10%nat
  = Some (if bool_decide (10%nat ∈ micropay_rows last_pair_table (user_id t))
          then relabel micropay_scam t
          else if bool_decide
                    (10%nat ∈ velocity_rows 42 reverse_permutation
                                last_pair_table (user_id t))
          then relabel velocity_attack t
          else t).
Proof.
  apply (micropay_label_wins 42 reverse_permutation reverse_permutation_perm
           last_pair_table 10 (plain_row "U" 120000000 15000)).
  - reflexivity.
  - apply tracked_single. vm_compute. reflexivity.
  - vm_compute. lia.
Defined.

(** On that table the row is both sampled and relabelled by the scan. *)
Example sampled_and_scanned :
  velocity_rows 42 reverse_permutation last_pair_table "U" = [10%nat] ∧
  micropay_rows last_pair_table "U" = [10%nat].
Proof. split; vm_compute; reflexivity. Qed.

Lemma akin_shift_time δ df : Forall2 (akin δ) df (shift_time δ <$> df).
Proof.
  induction df as [|t df IH]; csimpl; constructor; [|done].
  unfold akin. simpl. split_and!; [done..|lia].
Qed.

(** X7: the injector reads timestamps only through their differences.
    Moving every timestamp of a table by the same amount and then
    injecting gives the table injected first and moved afterwards. *)
Theorem injection_commutes_with_time_shift RANDOM_STATE permutation δ df :
  add_sequential_patterns RANDOM_STATE permutation (shift_time δ <$> df)
  = shift_time δ <$> add_sequential_patterns RANDOM_STATE permutation df.
Proof.
  rewrite !add_sequential_patterns_injector_labels.
  rewrite (injector_labels_akin _ _ δ df) by apply akin_shift_time.
  apply list_eq. intros p.
  rewrite list_lookup_fmap, !lookup_apply_labels, list_lookup_fmap.
  destruct (df !! p) as [t|]; [|done]. simpl.
  by destruct (injector_labels _ _ df p).
Qed.

(** X8: the tracked users are distinct users of the table, at most 100 of
    them; and when the table has at most 100 distinct users, the user of
    every row is tracked. *)
Theorem tracked_users_of_table df :
  NoDup (tracked_users df) ∧
  (length (tracked_users df) ≤ 100)%nat ∧
  (∀ user, user ∈ tracked_users df → ∃ t, t ∈ df ∧ user_id t = user) ∧
  ((length (unique (user_id <$> df)) ≤ 100)%nat →
   ∀ t, t ∈ df → user_id t ∈ tracked_users df).
Proof.
  unfold tracked_users. split_and!.
  - apply sublist_NoDup with (unique (user_id <$> df));
      [apply NoDup_unique|apply sublist_take].
  - rewrite length_take. lia.
  - intros user (k & Hk%list_elem_of_lookup_2 & _)%elem_of_take.
    apply elem_of_unique, list_elem_of_fmap in Hk as (t & -> & Ht).
    by exists t.
  - intros Hfew t Ht. rewrite take_ge by done.
    apply elem_of_unique, list_elem_of_fmap. by exists t.
Qed.

Lemma tracked_users_of_table_witness :
  NoDup (tracked_users two_users_table) ∧
  (length (tracked_users two_users_table) ≤ 100)%nat ∧
  (∀ user,
     user ∈ tracked_users two_users_table →
     ∃ t, t ∈ two_users_table ∧ user_id t = user) ∧
  ((length (unique (user_id <$> two_users_table)) ≤ 100)%nat →
   ∀ t, t ∈ two_users_table → user_id t ∈ tracked_users two_users_table).
Proof. exact (tracked_users_of_table two_users_table). Defined.

(** ** More on the sampler *)

(** *** Rounding between two integers stays between them *)

Lemma round_half_even_ge q k : (inject_Z k <= q)%Q → k ≤ round_half_even q.
Proof.
  intros H. pose proof (round_half_even_floor q) as Hfloor.
  unfold Qle in H. simpl in H.
  assert (k ≤ Qnum q / Z.pos (Qden q)); [|lia].
  apply Z.div_le_lower_bound; lia.
Qed.

Lemma round_half_even_le q k : (q <= inject_Z k)%Q → round_half_even q ≤ k.
Proof.
  intros H. unfold Qle in H. simpl in H. unfold round_half_even. cbv zeta.
  pose proof (Z.div_mod (Qnum q) (Z.pos (Qden q)) ltac:(lia)) as Hdm.
  pose proof (Z.mod_pos_bound (Qnum q) (Z.pos (Qden q)) ltac:(lia)) as Hm.
  revert Hdm Hm.
  generalize (Qnum q / Z.pos (Qden q)) (Qnum q mod Z.pos (Qden q)).
  intros f r Hdm Hm.
  assert (f ≤ k) by nia.
  repeat case_match; try lia; assert (f < k) by nia; lia.
Qed.

Lemma round2_ge x k : (inject_Z k <= x)%Q → (inject_Z k <= round2 x)%Q.
Proof.
  intros H. unfold round2, Qle. simpl.
  pose proof (round_half_even_ge (x * 100) (k * 100)) as Hr.
  rewrite inject_Z_mult in Hr. change (inject_Z 100) with 100%Q in Hr.
  assert (inject_Z k * 100 <= x * 100)%Q as H100 by lra.
  specialize (Hr H100). lia.
Qed.

Lemma round2_le x k : (x <= inject_Z k)%Q → (round2 x <= inject_Z k)%Q.
Proof.
  intros H. unfold round2, Qle. simpl.
  pose proof (round_half_even_le (x * 100) (k * 100)) as Hr.
  rewrite inject_Z_mult in Hr. change (inject_Z 100) with 100%Q in Hr.
  assert (x * 100 <= inject_Z k * 100)%Q as H100 by lra.
  specialize (Hr H100). lia.
Qed.

Lemma timedelta_mul_range td r :
  0 ≤ td → (0 <= r)%Q → (r < 1)%Q → 0 ≤ timedelta_mul td r ≤ td.
Proof.
  intros Htd Hr0 Hr1. unfold timedelta_mul.
  assert (0 <= inject_Z td)%Q as Hq.
  { change 0%Q with (inject_Z 0). by rewrite <- Zle_Qle. }
  split.
  - apply round_half_even_ge. change (inject_Z 0) with 0%Q. nra.
  - apply round_half_even_le. nra.
Qed.

Lemma round2_small x : x ∈ [1; 2; 5; 10]%Q → (round2 x == x)%Q.
Proof.
  intros H. repeat (apply elem_of_cons in H as [->|H]; [by vm_compute|]).
  by apply elem_of_nil in H.
Qed.

Lemma legitimate_not_archetype : legitimate ∉ archetypes.
Proof.
  intros H. unfold archetypes in H.
  repeat (apply elem_of_cons in H as [H|H]; [discriminate H|]).
  by apply elem_of_nil in H.
Qed.

Section SamplerExtras.

Variable P : PyRandom.
Variable N : NumpyRandom.
Hypothesis py_laws : PyRandomLaws P.
Hypothesis np_laws : NumpyLaws N.
Variable RANDOM_STATE : Z.
Variable FRAUD_RATE : Q.
Variable now : Z.
Variable hash : string → Z.

Local Abbreviation transaction_step :=
  (transaction_step P N FRAUD_RATE now hash).
Local Abbreviation generate_loop := (generate_loop P N FRAUD_RATE now hash).
Local Abbreviation run_sampler :=
  (run_sampler P N RANDOM_STATE FRAUD_RATE now hash).

Lemma returns_random_random_range :
  returns (random_random P N) (λ r, (0 <= r)%Q ∧ (r < 1)%Q).
Proof. apply returns_lift_py. intros s. by apply py_random_range. Qed.

Lemma returns_fraud_amount_drawn fraud_type user_avg amount_var :
  fraud_type ∈ archetypes →
  (1000 <= user_avg)%Q →
  returns (fraud_amount P N fraud_type user_avg amount_var)
    (λ a, ∃ x, a = Some x ∧ drawn_amount fraud_type x).
Proof.
  intros Hft Havg. unfold fraud_amount, archetypes in *.
  repeat (apply elem_of_cons in Hft as [->|Hft]); simpl.
  - eapply returns_bind;
      [apply returns_np_random_choice; [done|simpl; lia]|].
    intros a Ha. apply returns_ret. exists a. split; [done|].
    unfold drawn_amount. split_and!; done.
  - eapply returns_bind; [apply returns_np_uniform; [done|lra]|].
    intros a Ha. apply returns_ret. exists a. split; [done|].
    unfold drawn_amount. split_and!; done.
  - eapply returns_bind; [apply returns_np_uniform; [done|lra]|].
    intros u Hu. apply returns_ret. eexists. split; [done|].
    unfold drawn_amount. split_and!; try done. intros _. simpl in Hu. nra.
  - eapply returns_bind; [apply returns_np_uniform; [done|lra]|].
    intros a Ha. apply returns_ret. exists a. split; [done|].
    unfold drawn_amount. split_and!; done.
  - by apply elem_of_nil in Hft.
Qed.

(** The row built for the counter [i], column by column. *)
Lemma returns_generated_row i amount_var :
  returns (transaction_step i amount_var)
    (λ step, generated_row FRAUD_RATE now hash i (fst step)).
Proof.
  unfold transaction_step.
  eapply returns_bind;
    [apply returns_random_choice; [done|rewrite length_user_ids; lia]|].
  intros user Huser. simpl in Huser.
  eapply returns_bind; [apply returns_random_random_range|].
  intros r1 [Hr1 Hr1']. simpl in Hr1, Hr1'.
  eapply returns_bind; [apply returns_random_random_range|].
  intros r2 [Hr2 Hr2']. simpl in Hr2, Hr2'.
  eapply returns_bind.
  { apply returns_lift_np with (Q := λ e, (0 <= e)%Q). intros s.
    by apply np_exponential_range. }
  intros e He. simpl in He. cbv zeta.
  apply returns_bind with
    (Q1 := λ branch : string * option Q * string,
       branch.2 ∈ recipients ∧
       ∃ x, branch.1.2 = Some x ∧
         if Qltb r2 FRAUD_RATE then
           branch.1.1 ∈ archetypes ∧ drawn_amount branch.1.1 x
         else (10 <= x)%Q ∧ (x <= 100000)%Q).
  - destruct (Qltb r2 FRAUD_RATE).
    + eapply returns_bind;
        [apply returns_np_random_choice; [done|simpl; lia]|].
      intros fraud_type Hft. simpl in Hft.
      eapply returns_bind; [apply returns_fraud_amount_drawn; [done|lra]|].
      intros amount (x & -> & Hx).
      eapply returns_bind;
        [apply returns_random_choice; [done|rewrite length_recipients; lia]|].
      intros recipient Hrec. apply returns_ret. simpl. split; [done|].
      by exists x.
    + eapply returns_bind.
      { apply returns_lift_np with (Q := λ _, True). done. }
      intros x _.
      eapply returns_bind; [apply returns_random_random|]. intros r3 _.
      eapply returns_bind with (Q1 := λ a, a ∈ recipients).
      { destruct (Qltb r3 0.8).
        - eapply returns_weaken.
          + apply returns_random_choice; [done|].
            rewrite length_take, length_recipients. lia.
          + intros a (k & Hk & _)%elem_of_take.
            by apply list_elem_of_lookup_2 with k.
        - apply returns_random_choice; [done|].
          rewrite length_recipients. lia. }
      intros recipient Hrec. apply returns_ret. simpl. split; [done|].
      eexists. split; [done|]. unfold Qltb.
      destruct (Qle_bool x 10) eqn:Hx10; simpl.
      * by destruct (Qle_bool 10 100000).
      * assert (¬ (x <= 10)%Q) by (rewrite <- Qle_bool_iff; congruence).
        destruct (Qle_bool x 100000) eqn:Hx; simpl.
        -- apply Qle_bool_iff in Hx. split; lra.
        -- done.
  - intros [[fraud_type amount] recipient] [Hrec (x & Hamount & Hx)].
    simpl in Hrec, Hamount, Hx. subst amount. simpl.
    apply returns_bind with (Q1 := λ a, a = x); [by apply returns_ret|].
    intros ? ->.
    eapply returns_bind; [apply returns_random_choice; [done|simpl; lia]|].
    intros transaction_type Htype. simpl in Htype.
    eapply returns_bind; [apply returns_random_choice; [done|simpl; lia]|].
    intros location Hloc. simpl in Hloc. apply returns_ret.
    unfold generated_row. simpl. split_and!.
    + done.
    + unfold in_pools. simpl. split_and!; try done.
      destruct (Qltb r2 FRAUD_RATE); [right|left]; by destruct Hx.
    + unfold in_window, start_date, end_date. simpl.
      replace (now - (now - days 90)) with (days 90) by lia.
      pose proof (timedelta_mul_range (days 90) r1 ltac:(done) Hr1 Hr1').
      lia.
    + unfold amount_by_label. simpl.
      destruct (Qltb r2 FRAUD_RATE).
      * destruct Hx as [Hft (Hmicro & Hvel & Hnew & Hfake)]. split_and!.
        -- intros ->. by destruct legitimate_not_archetype.
        -- intros Hl. specialize (Hmicro Hl).
           pose proof (round2_small x Hmicro) as Hround.
           repeat (apply elem_of_cons in Hmicro as [->|Hmicro]; [tauto|]).
           by apply elem_of_nil in Hmicro.
        -- intros Hl. by apply (round2_ge x 5000), Hvel.
        -- intros Hl. by apply (round2_ge x 3000), Hnew.
        -- intros Hl. by apply (round2_ge x 1000), Hfake.
      * destruct Hx as [Hlo Hhi]. split_and!; try done.
        intros _. split; [by apply (round2_ge x 10)|].
        by apply (round2_le x 100000).
    + unfold device_of_user. simpl. eexists. split_and!; [|done|done].
      pose proof (Z.mod_pos_bound (hash user) 100 ltac:(lia)). lia.
    + unfold flag_by_rate, Qltb. simpl. split.
      * intros Hrate. assert (FRAUD_RATE <= r2)%Q as Hle by lra.
        apply Qle_bool_iff in Hle. by rewrite Hle.
      * intros Hrate. destruct (Qle_bool FRAUD_RATE r2) eqn:Hle; [|done].
        apply Qle_bool_iff in Hle. lra.
Qed.

Lemma returns_generated_rows counters amount_var data :
  returns (generate_loop counters amount_var data)
    (λ df,
       ∃ rows,
         df = data ++ rows ∧
         Forall2 (generated_row FRAUD_RATE now hash) counters rows).
Proof.
  revert amount_var data.
  induction counters as [|i counters IH]; intros amount_var data; simpl.
  { apply returns_ret. exists []. by rewrite app_nil_r. }
  eapply returns_bind; [apply returns_generated_row|].
  intros [t amount_var'] Ht. simpl in *.
  eapply returns_weaken; [apply IH|].
  intros df (rows & -> & Hrows). exists (t :: rows).
  split; [by rewrite <- app_assoc|]. by constructor.
Qed.

Lemma run_sampler_generated_rows n_samples :
  ∃ df,
    run_sampler n_samples = Some df ∧
    Forall2 (generated_row FRAUD_RATE now hash) (seq 0 n_samples) df.
Proof.
  unfold run_sampler, generate_synthetic_transactions.
  destruct (returns_generated_rows (seq 0 n_samples) None []
              (seeded P N RANDOM_STATE))
    as (df & w & Hrun & rows & -> & Hrows).
  exists rows. by rewrite Hrun.
Qed.

End SamplerExtras.

(** A property of rows that relabelling keeps survives the injector. *)
Lemma Forall_add_sequential_patterns RANDOM_STATE permutation
    (Q : transaction → Prop) df :
  (∀ s t, Q t → Q (relabel s t)) →
  Forall Q df →
  Forall Q (add_sequential_patterns RANDOM_STATE permutation df).
Proof.
  intros Hrelabel Hdf. rewrite add_sequential_patterns_injector_labels.
  apply Forall_lookup. intros p t'. rewrite lookup_apply_labels.
  destruct (df !! p) as [t|] eqn:Hp; [|done]. simpl. intros [= <-].
  pose proof (Forall_lookup_1 _ _ _ _ Hdf Hp) as Ht.
  destruct (injector_labels _ _ df p); simpl; auto.
Qed.

Lemma Forall2_Forall_generated {A} (R : A → transaction → Prop)
    (Q : transaction → Prop) l df :
  (∀ a t, R a t → Q t) → Forall2 R l df → Forall Q df.
Proof.
  intros HRQ H. induction H as [|a t l df Hat _ IH]; constructor; eauto.
Qed.

Lemma generated_amount_ge_1 t :
  in_pools t → amount_by_label t → (1 <= amount t)%Q.
Proof.
  intros (_ & _ & _ & _ & Hlabel) (Hleg & Hmicro & Hvel & Hnew & Hfake).
  destruct Hlabel as [[_ Hl]|[_ Hl]].
  - destruct (Hleg Hl). lra.
  - unfold archetypes in Hl.
    repeat (apply elem_of_cons in Hl as [Hl|Hl]).
    + destruct (Hmicro Hl) as [H|[H|[H|H]]]; rewrite H; done.
    + specialize (Hvel Hl). lra.
    + specialize (Hnew Hl). lra.
    + specialize (Hfake Hl). lra.
    + by apply elem_of_nil in Hl.
Qed.

Section SamplerTheorems.

Variable P : PyRandom.
Variable N : NumpyRandom.
Hypothesis py_laws : PyRandomLaws P.
Hypothesis np_laws : NumpyLaws N.
Variable RANDOM_STATE : Z.
Variable FRAUD_RATE : Q.
Variable now : Z.
Variable hash : string → Z.

Local Abbreviation run_sampler :=
  (run_sampler P N RANDOM_STATE FRAUD_RATE now hash).

(** X9: every generated record takes its user among the 1000 users, its
    recipient among the 500 recipients, its type and its location among
    the listed ones, and is either unflagged and labelled legitimate or
    flagged and labelled with one of the four archetypes. *)
Theorem sampler_columns_in_pools n_samples :
  ∃ df, run_sampler n_samples = Some df ∧ Forall in_pools df.
Proof.
  destruct (run_sampler_generated_rows P N py_laws np_laws RANDOM_STATE
              FRAUD_RATE now hash n_samples) as (df & Hrun & Hrows).
  exists df. split; [done|].
  apply (Forall2_Forall_generated _ _ _ _ (λ i t H, proj1 (proj2 H)) Hrows).
Qed.

(** X10: every generated timestamp lies in the 90 days that end at the
    reading of the clock, both ends included. *)
Theorem sampler_timestamps_in_window n_samples :
  ∃ df, run_sampler n_samples = Some df ∧ Forall (in_window now) df.
Proof.
  destruct (run_sampler_generated_rows P N py_laws np_laws RANDOM_STATE
              FRAUD_RATE now hash n_samples) as (df & Hrun & Hrows).
  exists df. split; [done|].
  eapply Forall2_Forall_generated; [|done].
  by intros i t (_ & _ & H & _).
Qed.

(** X11: the amount of a generated record, by its label: between 10 and
    100000 when legitimate, one of 1, 2, 5, 10 for a micropay_scam, at
    least 5000 for a velocity_attack, at least 3000 for a new_recipient, at
    least 1000 for a fake_refund; in every case at least 1. *)
Theorem sampler_amounts_by_label n_samples :
  ∃ df,
    run_sampler n_samples = Some df ∧
    Forall (λ t, amount_by_label t ∧ (1 <= amount t)%Q) df.
Proof.
  destruct (run_sampler_generated_rows P N py_laws np_laws RANDOM_STATE
              FRAUD_RATE now hash n_samples) as (df & Hrun & Hrows).
  exists df. split; [done|].
  eapply Forall2_Forall_generated; [|done].
  intros i t (_ & Hpools & _ & Hamount & _). split; [done|].
  by apply generated_amount_ge_1.
Qed.

(** X12: within one run the device is a function of the user: each
    generated record has the device id DEV_ followed by three digits for
    [hash(user_id) % 100], a number below 100, so two records of the same
    user carry the same device id. *)
Theorem sampler_device_per_user n_samples :
  ∃ df,
    run_sampler n_samples = Some df ∧
    Forall (device_of_user hash) df ∧
    ∀ t1 t2,
      t1 ∈ df → t2 ∈ df → user_id t1 = user_id t2 →
      device_id t1 = device_id t2.
Proof.
  destruct (run_sampler_generated_rows P N py_laws np_laws RANDOM_STATE
              FRAUD_RATE now hash n_samples) as (df & Hrun & Hrows).
  exists df. split; [done|].
  assert (Forall (device_of_user hash) df) as Hdev.
  { eapply Forall2_Forall_generated; [|done].
    by intros i t (_ & _ & _ & _ & H & _). }
  split; [done|]. intros t1 t2 H1 H2 Hu.
  rewrite Forall_forall in Hdev.
  destruct (Hdev t1 H1) as (b1 & _ & -> & ->).
  destruct (Hdev t2 H2) as (b2 & _ & -> & ->). by rewrite Hu.
Qed.

(** X13: a fraud rate outside of (0, 1) is not refused. With a rate of 0
    or less every record is unflagged and legitimate; with a rate of 1 or
    more every record is flagged and carries an archetype. *)
Theorem sampler_rate_out_of_range n_samples :
  ∃ df,
    run_sampler n_samples = Some df ∧
    ((FRAUD_RATE <= 0)%Q →
     Forall (λ t, is_fraud t = 0 ∧ fraud_type t = legitimate) df) ∧
    ((1 <= FRAUD_RATE)%Q →
     Forall (λ t, is_fraud t = 1 ∧ fraud_type t ∈ archetypes) df).
Proof.
  destruct (run_sampler_generated_rows P N py_laws np_laws RANDOM_STATE
              FRAUD_RATE now hash n_samples) as (df & Hrun & Hrows).
  exists df. split; [done|]. split; intros Hrate.
  - eapply Forall2_Forall_generated; [|done].
    intros i t (_ & (_ & _ & _ & _ & Hlabel) & _ & _ & _ & [Hflag _]).
    specialize (Hflag Hrate). destruct Hlabel as [[_ ?]|[? _]]; [done|lia].
  - eapply Forall2_Forall_generated; [|done].
    intros i t (_ & (_ & _ & _ & _ & Hlabel) & _ & _ & _ & [_ Hflag]).
    specialize (Hflag Hrate). destruct Hlabel as [[? _]|[_ ?]]; [lia|done].
Qed.

(** X14: the table the script writes, after both stages, when at least
    one row is asked for: it has the requested number of rows, identifiers in generation order without
    repetition, users and recipients from the pools, timestamps in the
    window, amounts of at least 1, flags that are 0 or 1 and labels
    consistent with them. *)
Theorem script_output permutation n_samples :
  (0 < n_samples)%nat →
  ∃ df,
    run_script P N RANDOM_STATE FRAUD_RATE permutation now hash n_samples
      = Some df ∧
    length df = n_samples ∧
    transaction_id <$> df
      = (λ i, "TXN_" +:+ format_d 8 i) <$> seq 0 n_samples ∧
    NoDup (transaction_id <$> df) ∧
    Forall
      (λ t,
         user_id t ∈ user_ids ∧ recipient_id t ∈ recipients ∧
         in_window now t ∧ (1 <= amount t)%Q ∧ flag_01 t ∧
         labels_consistent t)
      df.
Proof.
  intros Hn.
  destruct (run_sampler_generated_rows P N py_laws np_laws RANDOM_STATE
              FRAUD_RATE now hash n_samples) as (df & Hrun & Hrows).
  exists (add_sequential_patterns RANDOM_STATE permutation df).
  split.
  { unfold run_script. rewrite Hrun. destruct df; [|done].
    apply Forall2_length in Hrows. rewrite length_seq in Hrows.
    simpl in Hrows. lia. }
  assert (transaction_id <$>
            add_sequential_patterns RANDOM_STATE permutation df
          = (λ i, "TXN_" +:+ format_d 8 i) <$> seq 0 n_samples) as Hids.
  { rewrite add_sequential_patterns_injector_labels.
    apply list_eq. intros p.
    rewrite !list_lookup_fmap, lookup_apply_labels.
    pose proof (proj1 (Forall2_lookup _ _ _) Hrows p) as Hp.
    destruct Hp as [i t (Hid & _)|]; [|done]. simpl. f_equal.
    by destruct (injector_labels _ _ df p). }
  split_and!; [|done|..].
  - apply (f_equal length) in Hids.
    by rewrite !length_fmap, length_seq in Hids.
  - rewrite Hids. apply NoDup_fmap_2; [|apply NoDup_seq].
    intros i j Hij. apply append_cancel_l in Hij.
    by apply format_d_inj in Hij.
  - assert (Forall
              (λ t,
                 (user_id t ∈ user_ids ∧ recipient_id t ∈ recipients ∧
                  in_window now t ∧ (1 <= amount t)%Q ∧ flag_01 t) ∧
                 labels_consistent t)
              (add_sequential_patterns RANDOM_STATE permutation df)) as H.
    { apply Forall_and. split.
      - apply Forall_add_sequential_patterns.
        + intros s t (? & ? & ? & ? & ?). split_and!; try done. by right.
        + eapply Forall2_Forall_generated; [|done].
          intros i t (_ & Hpools & Hwin & Hamount & _).
          pose proof (generated_amount_ge_1 t Hpools Hamount).
          destruct Hpools as (? & ? & _ & _ & Hlabel).
          split_and!; try done.
          unfold flag_01. destruct Hlabel as [[? _]|[? _]]; auto.
      - apply add_sequential_patterns_consistent.
        eapply Forall2_Forall_generated; [|done].
        intros i t (_ & (_ & _ & _ & _ & Hlabel) & _).
        unfold labels_consistent.
        destruct Hlabel as [[-> ->]|[-> Hl]]; [done|].
        split; [|done]. intros Heq. rewrite Heq in Hl.
        by destruct legitimate_not_archetype. }
    eapply Forall_impl; [done|]. simpl. tauto.
Qed.

End SamplerTheorems.

(** *** The fraud rate that the script prints *)

Lemma is_fraud_mean_range df r :
  Forall flag_01 df → is_fraud_mean df = Some r → (0 <= r)%Q ∧ (r <= 1)%Q.
Proof.
  intros Hflags Hr. pose proof (is_fraud_sum_bounds df Hflags) as Hsum.
  destruct df as [|t df]; [done|]. injection Hr as <-.
  unfold Qle. simpl Qnum. simpl Qden. simpl length in *. lia.
Qed.

Lemma is_fraud_mean_mono df df' :
  Forall2 (λ t t', is_fraud t ≤ is_fraud t') df df' →
  df ≠ [] →
  ∃ r r',
    is_fraud_mean df = Some r ∧ is_fraud_mean df' = Some r' ∧ (r <= r')%Q.
Proof.
  intros H Hne. pose proof (is_fraud_sum_mono df df' H) as Hsum.
  pose proof (Forall2_length _ _ _ H) as Hlen.
  destruct H as [|t t' df df' Ht H]; [done|].
  eexists _, _. split_and!; [done|done|].
  simpl length in *. rewrite <- Hlen.
  unfold Qle. simpl Qnum. simpl Qden.
  apply Z.mul_le_mono_nonneg_r; lia.
Qed.

(** *** A longer run begins like a shorter one *)

Lemma generate_loop_extends P N FRAUD_RATE now hash counters amount_var
    data w df w' :
  generate_loop P N FRAUD_RATE now hash counters amount_var data w
    = Some (df, w') →
  ∃ rows, df = data ++ rows ∧ length rows = length counters.
Proof.
  revert amount_var data w.
  induction counters as [|i counters IH]; intros amount_var data w; simpl.
  { intros [= <- <-]. exists []. by rewrite app_nil_r. }
  unfold bind.
  destruct (transaction_step P N FRAUD_RATE now hash i amount_var w)
    as [[[t a] w1]|]; [|done].
  simpl. intros (rows & -> & Hlen)%IH. exists (t :: rows).
  split; [by rewrite <- app_assoc|]. simpl. by rewrite Hlen.
Qed.

Lemma generate_loop_app P N FRAUD_RATE now hash counters counters'
    amount_var data w df w' :
  generate_loop P N FRAUD_RATE now hash (counters ++ counters') amount_var
    data w = Some (df, w') →
  ∃ df0 w0,
    generate_loop P N FRAUD_RATE now hash counters amount_var data w
      = Some (df0, w0) ∧
    df0 `prefix_of` df ∧
    length df0 = (length data + length counters)%nat.
Proof.
  revert amount_var data w.
  induction counters as [|i counters IH]; intros amount_var data w; simpl.
  { intros (rows & -> & _)%generate_loop_extends.
    exists data, w. split_and!; [done| |lia]. by exists rows. }
  unfold bind.
  destruct (transaction_step P N FRAUD_RATE now hash i amount_var w)
    as [[[t a] w1]|]; [|done].
  simpl. intros (df0 & w0 & Hrun & Hprefix & Hlen)%IH.
  exists df0, w0. split_and!; [done|done|].
  rewrite Hlen, length_app. simpl. lia.
Qed.

(** X15: the rows of a run do not depend on how many rows are asked for
    after them. With the same seed, clock and hash, a run for [n + m] rows
    that returns begins with the table of the run for [n] rows. *)
Theorem longer_run_extends_shorter P N RANDOM_STATE FRAUD_RATE now hash
    n m df :
  run_sampler P N RANDOM_STATE FRAUD_RATE now hash (n + m) = Some df →
  run_sampler P N RANDOM_STATE FRAUD_RATE now hash n = Some (take n df).
Proof.
  unfold run_sampler, generate_synthetic_transactions.
  rewrite seq_app. simpl.
  destruct (generate_loop P N FRAUD_RATE now hash (seq 0 n ++ seq n m) None
              [] (seeded P N RANDOM_STATE)) as [[df' w']|] eqn:Hrun; [|done].
  simpl. intros [= <-].
  apply generate_loop_app in Hrun as (df0 & w0 & -> & [rows ->] & Hlen).
  simpl. f_equal. rewrite length_seq in Hlen. simpl in Hlen.
  by rewrite <- Hlen, take_app_length.
Qed.

Section ScriptSummary.

Variable P : PyRandom.
Variable N : NumpyRandom.
Hypothesis py_laws : PyRandomLaws P.
Hypothesis np_laws : NumpyLaws N.
Variable RANDOM_STATE : Z.
Variable FRAUD_RATE : Q.
Variable permutation : Z → nat → list nat.
Variable now : Z.
Variable hash : string → Z.

(** X16: for a positive number of rows, the fraud rate of the table the
    script writes is defined, lies between 0 and 1, and is not below the
    fraud rate of the table as the sampler built it. *)
Theorem script_fraud_rate n_samples :
  (0 < n_samples)%nat →
  ∃ df0 df r0 r,
    run_sampler P N RANDOM_STATE FRAUD_RATE now hash n_samples = Some df0 ∧
    run_script P N RANDOM_STATE FRAUD_RATE permutation now hash n_samples
      = Some df ∧
    is_fraud_mean df0 = Some r0 ∧ is_fraud_mean df = Some r ∧
    (0 <= r0)%Q ∧ (r0 <= r)%Q ∧ (r <= 1)%Q.
Proof.
  intros Hn.
  destruct (run_sampler_generated_rows P N py_laws np_laws RANDOM_STATE
              FRAUD_RATE now hash n_samples) as (df0 & Hrun & Hrows).
  assert (Forall flag_01 df0) as Hflags.
  { eapply Forall2_Forall_generated; [|done].
    intros i t (_ & (_ & _ & _ & _ & Hlabel) & _).
    unfold flag_01. destruct Hlabel as [[? _]|[? _]]; auto. }
  pose proof (flags_after_injection RANDOM_STATE permutation df0 Hflags) as H.
  assert (df0 ≠ []) as Hne.
  { intros ->. apply Forall2_length in Hrows.
    rewrite length_seq in Hrows. simpl in Hrows. lia. }
  destruct (is_fraud_mean_mono df0
              (add_sequential_patterns RANDOM_STATE permutation df0))
    as (r0 & r & Hr0 & Hr & Hle); [|done|].
  { eapply Forall2_impl; [done|]. by intros ?? [??]. }
  exists df0, (add_sequential_patterns RANDOM_STATE permutation df0), r0, r.
  assert (run_script P N RANDOM_STATE FRAUD_RATE permutation now hash
            n_samples
          = Some (add_sequential_patterns RANDOM_STATE permutation df0))
    as Hscript.
  { unfold run_script. rewrite Hrun. by destruct df0. }
  split_and!; try done.
  - by destruct (is_fraud_mean_range df0 r0 Hflags Hr0).
  - apply (is_fraud_mean_range
             (add_sequential_patterns RANDOM_STATE permutation df0) r);
      [|done].
    apply Forall2_Forall_r with (Q := flag_01) in H; [done|].
    apply Forall_true. by intros ?? [??].
Qed.

End ScriptSummary.

(** *** The sampler's properties on the counter generators *)

Lemma sampler_columns_in_pools_witness :
  ∃ df,
    run_sampler counter_py counter_np 42 0.3 0 hash_zero 12 = Some df ∧
    Forall in_pools df.
Proof.
  exact (sampler_columns_in_pools counter_py counter_np counter_py_laws
           counter_np_laws 42 0.3 0 hash_zero 12).
Defined.

Lemma sampler_timestamps_in_window_witness :
  ∃ df,
    run_sampler counter_py counter_np 42 0.3 7776000000000 hash_zero 12
      = Some df ∧
    Forall (in_window 7776000000000) df.
Proof.
  exact (sampler_timestamps_in_window counter_py counter_np counter_py_laws
           counter_np_laws 42 0.3 7776000000000 hash_zero 12).
Defined.

Lemma sampler_amounts_by_label_witness :
  ∃ df,
    run_sampler counter_py counter_np 42 0.3 0 hash_zero 12 = Some df ∧
    Forall (λ t, amount_by_label t ∧ (1 <= amount t)%Q) df.
Proof.
  exact (sampler_amounts_by_label counter_py counter_np counter_py_laws
           counter_np_laws 42 0.3 0 hash_zero 12).
Defined.

Lemma sampler_device_per_user_witness :
  ∃ df,
    run_sampler counter_py counter_np 42 0.3 0 hash_length 12 = Some df ∧
    Forall (device_of_user hash_length) df ∧
    ∀ t1 t2,
      t1 ∈ df → t2 ∈ df → user_id t1 = user_id t2 →
      device_id t1 = device_id t2.
Proof.
  exact (sampler_device_per_user counter_py counter_np counter_py_laws
           counter_np_laws 42 0.3 0 hash_length 12).
Defined.

Lemma sampler_rate_out_of_range_witness :
  ∃ df,
    run_sampler counter_py counter_np 42 0 0 hash_zero 12 = Some df ∧
    ((0 <= 0)%Q →
     Forall (λ t, is_fraud t = 0 ∧ fraud_type t = legitimate) df) ∧
    ((1 <= 0)%Q →
     Forall (λ t, is_fraud t = 1 ∧ fraud_type t ∈ archetypes) df).
Proof.
  exact (sampler_rate_out_of_range counter_py counter_np counter_py_laws
           counter_np_laws 42 0 0 hash_zero 12).
Defined.

Lemma script_output_witness :
  ∃ df,
    run_script counter_py counter_np 42 0.3 identity_permutation 0 hash_zero
      12 = Some df ∧
    length df = 12%nat ∧
    transaction_id <$> df = (λ i, "TXN_" +:+ format_d 8 i) <$> seq 0 12 ∧
    NoDup (transaction_id <$> df) ∧
    Forall
      (λ t,
         user_id t ∈ user_ids ∧ recipient_id t ∈ recipients ∧
         in_window 0 t ∧ (1 <= amount t)%Q ∧ flag_01 t ∧
         labels_consistent t)
      df.
Proof.
  apply (script_output counter_py counter_np counter_py_laws counter_np_laws
           42 0.3 0 hash_zero identity_permutation 12).
  lia.
Defined.

Lemma longer_run_extends_shorter_witness :
  ∃ df,
    run_sampler counter_py counter_np 42 0.3 0 hash_zero (2 + 3) = Some df ∧
    run_sampler counter_py counter_np 42 0.3 0 hash_zero 2 = Some (take 2 df).
Proof.
  eexists. split; [vm_compute; reflexivity|].
  apply (longer_run_extends_shorter counter_py counter_np 42 0.3 0 hash_zero
           2 3).
  vm_compute. reflexivity.
Defined.

Lemma script_fraud_rate_witness :
  ∃ df0 df r0 r,
    run_sampler counter_py counter_np 42 0.3 0 hash_zero 12 = Some df0 ∧
    run_script counter_py counter_np 42 0.3 identity_permutation 0 hash_zero
      12 = Some df ∧
    is_fraud_mean df0 = Some r0 ∧ is_fraud_mean df = Some r ∧
    (0 <= r0)%Q ∧ (r0 <= r)%Q ∧ (r <= 1)%Q.
Proof.
  apply (script_fraud_rate counter_py counter_np counter_py_laws
           counter_np_laws 42 0.3 identity_permutation 0 hash_zero 12).
  lia.
Defined.

(** With a rate of 0.3 the counter generators flag four of twelve rows. *)
Example counter_run_fraud_rate :
  is_fraud_mean
    <$> run_sampler counter_py counter_np 42 0.3 0 hash_zero 12
  = Some (Some (4 # 12)).
Proof. vm_compute. reflexivity. Qed.

(** ** The velocity sample in the injector's output *)

Section VelocitySample.

Variable RANDOM_STATE : Z.
Variable permutation : Z → nat → list nat.
Hypothesis permutation_perm :
  ∀ seed n, Permutation (permutation seed n) (seq 0 n).

Local Abbreviation velocity_rows :=
  (velocity_rows RANDOM_STATE permutation).
Local Abbreviation add_sequential_patterns :=
  (add_sequential_patterns RANDOM_STATE permutation).

(** C3, as amended: the injector looks at the first 100 distinct users in
    order of first appearance. For each of them with more than 10 rows it
    draws, by the permutation seeded with [RANDOM_STATE], a sample of
    [round(0.1 * count)] of the user's rows: at least one row, the integer
    nearest to a tenth of the count, no row twice. In the output of the
    injector a sampled row has is_fraud set and is labelled
    velocity_attack, whatever its label was, unless the scan for
    micropayments of the same user relabelled it, and then it is labelled
    micropay_scam; a row of the user outside the sample is not relabelled
    velocity_attack. Rows of users that are not among the first 100, or
    have 10 rows or fewer, come out unchanged. *)
Theorem velocity_sample_in_output df :
  let users := tracked_users df in
  users = take 100 (unique (user_id <$> df)) ∧
  (∀ user,
     user ∈ users →
     (10 < mask_sum (user_mask df user))%nat →
     let mask := user_mask df user in
     let n := mask_sum mask in
     let sampled := velocity_rows df user in
     sampled
       = (λ j, nth j (masked_index mask) 0%nat)
           <$> take (sample_size n) (permutation RANDOM_STATE n) ∧
     (1 ≤ length sampled)%nat ∧
     (10 * length sampled ≤ n + 5)%nat ∧ (n ≤ 10 * length sampled + 5)%nat ∧
     NoDup sampled ∧
     (∀ p, p ∈ sampled → ∃ t, df !! p = Some t ∧ user_id t = user) ∧
     (∀ p t,
        df !! p = Some t → user_id t = user →
        add_sequential_patterns df !! p
        = Some (if bool_decide (p ∈ micropay_rows df user) then
                  relabel micropay_scam t
                else if bool_decide (p ∈ sampled) then
                  relabel velocity_attack t
                else t))) ∧
  (∀ p t,
     df !! p = Some t →
     user_id t ∉ users ∨ (mask_sum (user_mask df (user_id t)) ≤ 10)%nat →
     add_sequential_patterns df !! p = Some t).
Proof.
  intros users. split; [done|]. split; [|by apply untouched_row].
  intros user Hu Hn mask n sampled.
  assert (length sampled = sample_size n) as Hlen.
  { unfold sampled, velocity_rows.
    by rewrite length_sample_index, length_masked_index. }
  pose proof (sample_size_nearest n) as [Hlo Hhi].
  change (10 < n)%nat in Hn. rewrite Hlen. split_and!.
  - unfold sampled, velocity_rows, sample_index, sample_positions.
    fold mask. by rewrite length_masked_index.
  - lia.
  - lia.
  - lia.
  - apply NoDup_sample_index; [done|]. apply NoDup_index_from.
  - intros p Hp. apply elem_of_user_rows.
    by apply (sample_index_valid RANDOM_STATE permutation permutation_perm).
  - intros p t Hp <-.
    by apply (touched_row RANDOM_STATE permutation permutation_perm df p t).
Qed.

End VelocitySample.

Lemma velocity_sample_in_output_witness :
  let df := two_users_table in
  let users := tracked_users df in
  users = take 100 (unique (user_id <$> df)) ∧
  (∀ user,
     user ∈ users →
     (10 < mask_sum (user_mask df user))%nat →
     let mask := user_mask df user in
     let n := mask_sum mask in
     let sampled := velocity_rows 42 reverse_permutation df user in
     sampled
       = (λ j, nth j (masked_index mask) 0%nat)
           <$> take (sample_size n) (reverse_permutation 42 n) ∧
     (1 ≤ length sampled)%nat ∧
     (10 * length sampled ≤ n + 5)%nat ∧ (n ≤ 10 * length sampled + 5)%nat ∧
     NoDup sampled ∧
     (∀ p, p ∈ sampled → ∃ t, df !! p = Some t ∧ user_id t = user) ∧
     (∀ p t,
        df !! p = Some t → user_id t = user →
        add_sequential_patterns 42 reverse_permutation df !! p
        = Some (if bool_decide (p ∈ micropay_rows df user) then
                  relabel micropay_scam t
                else if bool_decide (p ∈ sampled) then
                  relabel velocity_attack t
                else t))) ∧
  (∀ p t,
     df !! p = Some t →
     user_id t ∉ users ∨ (mask_sum (user_mask df (user_id t)) ≤ 10)%nat →
     add_sequential_patterns 42 reverse_permutation df !! p = Some t).
Proof.
  exact (velocity_sample_in_output 42 reverse_permutation
           reverse_permutation_perm two_users_table).
Defined.

(** On that table the user with twelve rows has its last row sampled and
    relabelled, and the user with three rows is left alone. *)
Example velocity_sample_in_output_rows :
  (λ t, (user_id t, is_fraud t, fraud_type t))
    <$> add_sequential_patterns 42 reverse_permutation two_users_table
  = replicate 3 ("V", 0, legitimate)
      ++ replicate 11 ("U", 0, legitimate) ++ [("U", 1, velocity_attack)].
Proof. vm_compute. reflexivity. Qed.

(** C3 as stated fails on the output of the injector: a tracked user with
    11 rows, whose one sampled row is the large transfer of a micropayment
    pair. The scan for micropayments of lines 99-108 runs after the
    velocity pass and relabels that row, so the sampled row comes out as
    micropay_scam, not as velocity_attack. *)
Lemma sampled_row_ends_as_micropay_scam :
  let t := plain_row "U" 120000000 15000 in
  tracked_users last_pair_table = ["U"] ∧
  mask_sum (user_mask last_pair_table "U") = 11%nat ∧
  last_pair_table !! 10%nat = Some t ∧
  velocity_rows 42 reverse_permutation last_pair_table "U" = [10%nat] ∧
  add_sequential_patterns 42 reverse_permutation last_pair_table !! 10%nat
    = Some (relabel micropay_scam t) ∧
  fraud_type (relabel micropay_scam t) ≠ velocity_attack.
Proof.
  intros t. do 5 (split; [vm_compute; reflexivity|]).
  vm_compute. discriminate.
Qed.

(** Asked for no row at all, the sampler returns the empty table and the
    script raises at line 89. *)
Example script_raises_without_rows :
  run_sampler counter_py counter_np 42 0.3 0 hash_zero 0 = Some [] ∧
  run_script counter_py counter_np 42 0.3 identity_permutation 0 hash_zero 0
    = None.
Proof. split; reflexivity. Qed.
